(** * The rate-limit-aware request dispatcher of discord-api-wrapper

    A shallow embedding of [api/rest.go] ([Request], [requestWithBucketID],
    [request], [requestWithLockedBucket]) and of
    [Interaction.CreateInteractionResponse], with the properties the
    specification states about them.

    Go strings are Rocq strings, [time.Duration] and [time.Time] are
    integers (nanoseconds), a [(value, error)] pair of results is a pair of
    options, and the side effects of the dispatcher (locking and releasing
    a bucket, sending on the transport, sleeping) are threaded through an
    explicit [World] that also keeps the chronological trace of these
    effects. *)

From Stdlib Require Import ZArith Lia Ascii String.
From stdpp Require Import base option list strings gmap.

Local Open Scope Z_scope.
Local Open Scope string_scope.
Local Open Scope list_scope.

(** ** Go library functions used by [rest.go] *)

Module gostrings.

(** [strings.Cut(s, sep)] for a one-byte separator: the text before and
    after the first [sep], when there is one. *)
Fixpoint Cut (s : string) (sep : ascii) : option (string * string) :=
  match s with
  | EmptyString => None
  | String c rest =>
      if Ascii.eqb c sep then Some (EmptyString, rest)
      else match Cut rest sep with
           | Some (before, after) => Some (String c before, after)
           | None => None
           end
  end.

(** [strings.SplitN(s, sep, n)] for a one-byte separator and [n >= 0]:
    at most [n] substrings, the last one being the unsplit remainder. *)
Fixpoint SplitN (s : string) (sep : ascii) (n : nat) : list string :=
  match n with
  | O => []
  | S O => [s]
  | S n' =>
      match Cut s sep with
      | Some (before, after) => before :: SplitN after sep n'
      | None => [s]
      end
  end.

(** Membership of a byte in a string. *)
Fixpoint Contains (s : string) (c : ascii) : bool :=
  match s with
  | EmptyString => false
  | String d rest => Ascii.eqb d c || Contains rest c
  end.

(** [strings.HasPrefix(s, prefix)]. *)
Fixpoint HasPrefix (s prefix : string) {struct prefix} : bool :=
  match prefix with
  | EmptyString => true
  | String c prefix' =>
      match s with
      | EmptyString => false
      | String d s' => Ascii.eqb d c && HasPrefix s' prefix'
      end
  end.

(** [strings.Contains(s, substr)]: [substr] occurs somewhere in [s]. *)
Fixpoint ContainsString (s substr : string) : bool :=
  HasPrefix s substr
  || match s with
     | EmptyString => false
     | String _ s' => ContainsString s' substr
     end.

(** The two flags [strings.ToLower] computes first: whether every byte is
    below [utf8.RuneSelf], and whether there is an upper-case ASCII
    letter. *)
Fixpoint isASCII (s : string) : bool :=
  match s with
  | EmptyString => true
  | String c rest => (N_of_ascii c <? 128)%N && isASCII rest
  end.

Fixpoint hasUpper (s : string) : bool :=
  match s with
  | EmptyString => false
  | String c rest =>
      ((65 <=? N_of_ascii c)%N && (N_of_ascii c <=? 90)%N) || hasUpper rest
  end.

(** The byte loop of [strings.ToLower] for an ASCII string: ['A'..'Z']
    moved to ['a'..'z'], every other byte kept. *)
Fixpoint lowerBytes (s : string) : string :=
  match s with
  | EmptyString => EmptyString
  | String c rest =>
      String (if (65 <=? N_of_ascii c)%N && (N_of_ascii c <=? 90)%N
              then ascii_of_N (N_of_ascii c + 32) else c)
             (lowerBytes rest)
  end.

(** [strings.ToLower(s)]. An ASCII string without upper-case letters is
    returned as it is and one with upper-case letters goes through the
    byte loop; any other string is mapped rune by rune through
    [unicode.ToLower], which is left to [unicodeLower]. *)
Definition ToLower (unicodeLower : string -> string) (s : string) : string :=
  if isASCII s then (if hasUpper s then lowerBytes s else s)
  else unicodeLower s.

End gostrings.

(** Indexing a slice at 0; Go panics on an empty slice, which [SplitN]
    with [n = 2] never returns (lemma [SplitN2_nonempty]). *)
Definition index0 (l : list string) : string := default EmptyString (head l).

(** The expression [strings.SplitN(route, "?", 2)[0]] of [Request] and
    [request]. *)
Definition withoutQuery (route : string) : string :=
  index0 (gostrings.SplitN route "?"%char 2).

(** The [bucketID] that [request] hands to [lockBucket]: the one it is
    given, or the route without its query string when that is empty. *)
Definition resolveBucketID (route bucketID : string) : string :=
  if String.eqb bucketID EmptyString then withoutQuery route else bucketID.

(** The key under which [Request] locks a bucket for [route]: [Request]
    passes [strings.SplitN(route, "?", 2)[0]] down to [request]. *)
Definition bucketKey (route : string) : string :=
  resolveBucketID route (withoutQuery route).

(** ** Values that cross the dispatcher *)

Definition Error := string.

(** The rejection payload of a 429.

    Modelled from the spec: the declaration of [rateLimitResponse] is not
    part of [rest.go]; the specification gives the payload as
    [{ retryAfter: duration, global: bool, message: string }]. *)
Record rateLimitResponse := {
  RetryAfter : Z;
Global : bool;
  Message : string
}.

(** A non-nil [interface{}] given as request body. The dispatcher does one
    thing with it, [json.Encoder.Encode], so a value is represented by what
    that call produces for it: the JSON text, or the encoder's error (for a
    channel, a function, a NaN, a cyclic structure). *)
Inductive Payload :=
| Marshals (json : string)
| Unsupported (e : Error).

(** A response body. The dispatcher only reads it through
    [json.Decoder.Decode] into a [rateLimitResponse], so a body is either
    JSON for such a payload or other content on which the decoder fails. *)
Inductive Body :=
| RateLimitJSON (rlr : rateLimitResponse)
| OtherBody (raw : string) (e : Error).

Module json.

(** [encoder.Encode(&b)] into the buffer. *)
Definition Encode (b : Payload) : Error + string :=
  match b with
  | Marshals text => inr text
  | Unsupported e => inl e
  end.

(** [json.NewDecoder(resp.Body).Decode(&rlr)]. *)
Definition Decode (body : Body) : Error + rateLimitResponse :=
  match body with
  | RateLimitJSON rlr => inr rlr
  | OtherBody _ e => inl e
  end.

End json.

(** ** [net/http] as the dispatcher uses it *)

Module http.

(** [http.Header] is a [map[string][]string]. *)
Abbreviation Header := (gmap string (list string)).

Definition StatusOK : Z := 200.
Definition StatusCreated : Z := 201.
Definition StatusNoContent : Z := 204.
Definition StatusTooManyRequests : Z := 429.
Definition StatusBadGateway : Z := 502.

Definition isLower (c : ascii) : bool :=
  (97 <=? N_of_ascii c)%N && (N_of_ascii c <=? 122)%N.
Definition isUpper (c : ascii) : bool :=
  (65 <=? N_of_ascii c)%N && (N_of_ascii c <=? 90)%N.
Definition isDigit (c : ascii) : bool :=
  (48 <=? N_of_ascii c)%N && (N_of_ascii c <=? 57)%N.

(** The bytes allowed in a header field name (RFC 7230 token). *)
Definition validHeaderFieldByte (c : ascii) : bool :=
  isLower c || isUpper c || isDigit c
  || gostrings.Contains "!#$%&'*+-.^_`|~" c.

Fixpoint allValid (s : string) : bool :=
  match s with
  | EmptyString => true
  | String c rest => validHeaderFieldByte c && allValid rest
  end.

Fixpoint canonical (upper : bool) (s : string) : string :=
  match s with
  | EmptyString => EmptyString
  | String c rest =>
      let c' :=
        if upper && isLower c then ascii_of_N (N_of_ascii c - 32)
        else if negb upper && isUpper c then ascii_of_N (N_of_ascii c + 32)
        else c in
      String c' (canonical (Ascii.eqb c' "-") rest)
  end.

(** [http.CanonicalHeaderKey]: first letter and letters after a hyphen
    in upper case, the others in lower case; a key with a byte that
    cannot occur in a field name is returned as it is. *)
Definition CanonicalHeaderKey (s : string) : string :=
  if allValid s then canonical true s else s.

(** [Header.Set(key, value)]. *)
Definition Header_Set (h : Header) (key value : string) : Header :=
  <[CanonicalHeaderKey key := [value]]> h.

(** [Header.Get(key)]: the first value of the key, or the empty string. *)
Definition Header_Get (h : Header) (key : string) : string :=
  match h !! CanonicalHeaderKey key with
  | Some (v :: _) => v
  | _ => EmptyString
  end.

(** Whether the header has an entry for the key at all. *)
Definition Header_Has (h : Header) (key : string) : bool :=
  bool_decide (is_Some (h !! CanonicalHeaderKey key)).

Record Request := {
  Method : string;
  URL : string;
  ReqHeader : Header;
  ReqBody : string
}.

Record Response := {
  Status : string;
  StatusCode : Z;
  RespHeader : Header;
  RespBody : Body
}.

End http.

(** What one call of [httpClient.Do] gives back: the Go pair
    [(resp, err)], either of which may be nil, and the time the call took.
    On a connection failure or an expired deadline the client returns a nil
    response with the error. *)
Record DoReply := {
  resp : option http.Response;
  err : option Error;
  elapsed : Z
}.

(** ** The world the dispatcher acts on *)

(** The effects of a request, in the order in which they happen. *)
Inductive Event :=
| EvLock (key : string) (at_ : Z)
| EvRelease (key : string) (headers : option http.Header)
| EvDo (req : http.Request) (at_ : Z)
| EvSleep (d : Z).

(** How a call of the dispatcher ends. *)
Inductive Outcome :=
| Returned (resp : option http.Response) (err : option Error)
| Panicked   (* nil pointer dereference *)
| Blocked    (* the bucket is never granted *)
| NoReply.   (* the transport has no further reply *)

(** The part of the limiter that [rest.go] calls but does not define:
    [lockBucket], [lockBucketObject] and [bucket.release]. A [*bucket] is
    identified with its key. Locking at a given time either never returns
    or returns after a wait. *)
Class Limiter (RL : Type) := {
  lockBucket : string -> RL -> Z -> option (RL * Z);
  lockBucketObject : string -> RL -> Z -> option (RL * Z);
  release : string -> option http.Header -> RL -> Z -> RL * option Error
}.

(** Package-level values that [rest.go] reads ([utilities.Token],
    [UserAgent]) and the validation of method and URL that
    [http.NewRequest] performs. *)
Record Env := {
  Token : string;
  UserAgent : string;
  requestError : string -> string -> option Error
}.

Record World (RL : Type) := {
  limiter : RL;
  now : Z;
  trace : list Event
}.
Arguments limiter {RL} _.
Arguments now {RL} _.
Arguments trace {RL} _.

(** ** The dispatcher: [rest.go] *)

Section Dispatcher.

Context {RL : Type} {L : Limiter RL} (env : Env).

(** [r.lockBucket(bucketID)]: the caller is suspended for the wait the
    limiter imposes. *)
Definition callLock (bucketID : string) (w : World RL) : option (World RL) :=
  match lockBucket bucketID (limiter w) (now w) with
  | None => None
  | Some (rl, wait) =>
      let t := now w + Z.max 0 wait in
      Some {| limiter := rl; now := t; trace := trace w ++ [EvLock bucketID t] |}
  end.

(** [r.lockBucketObject(bucket)]. *)
Definition callLockObject (bucket : string) (w : World RL) : option (World RL) :=
  match lockBucketObject bucket (limiter w) (now w) with
  | None => None
  | Some (rl, wait) =>
      let t := now w + Z.max 0 wait in
      Some {| limiter := rl; now := t; trace := trace w ++ [EvLock bucket t] |}
  end.

(** [bucket.release(headers)]. *)
Definition callRelease (bucket : string) (headers : option http.Header)
    (w : World RL) : World RL * option Error :=
  let '(rl, e) := release bucket headers (limiter w) (now w) in
  ({| limiter := rl; now := now w; trace := trace w ++ [EvRelease bucket headers] |}, e).

(** [time.Sleep(d)]: returns at once when [d] is zero or negative. *)
Definition time_Sleep (d : Z) (w : World RL) : World RL :=
  {| limiter := limiter w; now := now w + Z.max 0 d; trace := trace w ++ [EvSleep d] |}.

(** [httpClient.Do(req)]: the request leaves at the current time and the
    reply arrives [elapsed] later. *)
Definition httpClient_Do (req : http.Request) (reply : DoReply) (w : World RL) : World RL :=
  {| limiter := limiter w;
     now := now w + Z.max 0 (elapsed reply);
     trace := trace w ++ [EvDo req (now w)] |}.

(** [http.NewRequest(method, route, body)]: an empty method means GET and
    the header starts out empty. *)
Definition http_NewRequest (method route body : string) : Error + http.Request :=
  match requestError env method route with
  | Some e => inl e
  | None =>
      inr {| http.Method := if String.eqb method EmptyString then "GET" else method;
             http.URL := route;
             http.ReqHeader := ∅;
             http.ReqBody := body |}
  end.

Definition setHeader (req : http.Request) (key value : string) : http.Request :=
  {| http.Method := http.Method req;
     http.URL := http.URL req;
     http.ReqHeader := http.Header_Set (http.ReqHeader req) key value;
     http.ReqBody := http.ReqBody req |}.

(** Lines 95-104: the buffer that holds the encoded body. *)
Definition encodeBody (b : option Payload) : Error + string :=
  match b with
  | None => inr EmptyString
  | Some v => json.Encode v
  end.

(** Lines 112-118: the three header assignments. *)
Definition withHeaders (req : http.Request) (contentType : string) (b : option Payload) : http.Request :=
  let req := setHeader req (http.CanonicalHeaderKey "Authorization") ("Bot " +:+ Token env) in
  let req := if b is Some _ then setHeader req (http.CanonicalHeaderKey "Content-Type") contentType
             else req in
  setHeader req (http.CanonicalHeaderKey "User-Agent") (UserAgent env).

(** [requestWithLockedBucket]. Each attempt that reaches the transport
    consumes one reply; the recursion of the source on a 429 is the
    recursion on the remaining replies. *)
Fixpoint requestWithLockedBucket (replies : list DoReply)
    (method route contentType : string) (b : option Payload) (bucket : string)
    (sequence : Z) (reason : option string) (w : World RL) {struct replies}
    : Outcome * World RL :=
  match encodeBody b with
  | inl e =>
      let '(w, _) := callRelease bucket None w in
      (Returned None (Some e), w)
  | inr buffer =>
  match http_NewRequest method route buffer with
  | inl e =>
      let '(w, _) := callRelease bucket None w in
      (Returned None (Some e), w)
  | inr req =>
  let req := withHeaders req contentType b in
  match replies with
  | [] => (NoReply, w)
  | reply :: rest =>
  let w := httpClient_Do req reply w in
  (* logging.Infoln(resp.Status), before err is looked at *)
  match resp reply with
  | None => (Panicked, w)
  | Some r =>
  match err reply with
  | Some e =>
      let '(w, _) := callRelease bucket None w in
      (Returned None (Some e), w)
  | None =>
  let '(w, rerr) := callRelease bucket (Some (http.RespHeader r)) w in
  match rerr with
  | Some e => (Returned None (Some e), w)
  | None =>
      if Z.eqb (http.StatusCode r) http.StatusOK then (Returned (Some r) None, w)
      else if Z.eqb (http.StatusCode r) http.StatusCreated then (Returned (Some r) None, w)
      else if Z.eqb (http.StatusCode r) http.StatusNoContent then (Returned (Some r) None, w)
      else if Z.eqb (http.StatusCode r) http.StatusBadGateway then (Returned (Some r) None, w)
      else if Z.eqb (http.StatusCode r) http.StatusTooManyRequests then
        match json.Decode (http.RespBody r) with
        | inl e => (Returned None (Some e), w)
        | inr rlr =>
            let w := time_Sleep (RetryAfter rlr) w in
            match callLockObject bucket w with
            | None => (Blocked, w)
            | Some w =>
                (* resp, err = r.requestWithLockedBucket(...); return resp, nil *)
                match requestWithLockedBucket rest method route contentType b
                        bucket sequence reason w with
                | (Returned resp' err', w) => (Returned resp' None, w)
                | (stuck, w) => (stuck, w)
                end
            end
        end
      else (Returned (Some r) None, w)
  end end end end end end.

(** [request]: the bucket is locked while the arguments of the call to
    [requestWithLockedBucket] are evaluated. *)
Definition request (replies : list DoReply) (method route contentType : string)
    (b : option Payload) (bucketID : string) (sequence : Z)
    (reason : option string) (w : World RL) : Outcome * World RL :=
  let bucketID := resolveBucketID route bucketID in
  match callLock bucketID w with
  | None => (Blocked, w)
  | Some w =>
      requestWithLockedBucket replies method route contentType b bucketID sequence reason w
  end.

Definition requestWithBucketID (replies : list DoReply) (method route : string)
    (data : option Payload) (bucketID : string) (reason : option string)
    (w : World RL) : Outcome * World RL :=
  request replies method route "application/json" data bucketID 0 reason w.

Definition Request (replies : list DoReply) (method route : string)
    (data : option Payload) (reason : option string) (w : World RL)
    : Outcome * World RL :=
  requestWithBucketID replies method route data (withoutQuery route) reason w.

(** The request an attempt puts on the wire, when it gets that far: the
    encoded body, [http.NewRequest], then the header assignments. *)
Definition outbound (method route contentType : string) (b : option Payload)
    : Error + http.Request :=
  match encodeBody b with
  | inl e => inl e
  | inr buffer =>
      match http_NewRequest method route buffer with
      | inl e => inl e
      | inr req => inr (withHeaders req contentType b)
      end
  end.

(** The world in which an attempt examines the status of its response [r]:
    the transport call has returned and the bucket has been released with
    the headers of the response. *)
Definition received (req : http.Request) (bucket : string) (reply : DoReply)
    (r : http.Response) (w : World RL) : World RL * option Error :=
  callRelease bucket (Some (http.RespHeader r)) (httpClient_Do req reply w).

(** The requests sent in a trace, in order. *)
Fixpoint sent (tr : list Event) : list (http.Request * Z) :=
  match tr with
  | [] => []
  | EvDo req t :: rest => (req, t) :: sent rest
  | _ :: rest => sent rest
  end.

(** The buckets released in a trace, with the headers given, in order. *)
Fixpoint released (tr : list Event) : list (string * option http.Header) :=
  match tr with
  | [] => []
  | EvRelease k h :: rest => (k, h) :: released rest
  | _ :: rest => released rest
  end.

(** The waits of [time.Sleep] in a trace, in order. *)
Fixpoint slept (tr : list Event) : list Z :=
  match tr with
  | [] => []
  | EvSleep d :: rest => d :: slept rest
  | _ :: rest => slept rest
  end.

(** What an attempt on [bucket] started at time [t0] may add to the trace:
    locks and releases of that bucket, sleeps, and transport calls that
    carry the request [outbound] builds, none of them before [t0]. *)
Definition emitted (bucket : string) (built : Error + http.Request) (t0 : Z)
    (ev : Event) : Prop :=
  match ev with
  | EvLock k t => k = bucket /\ t0 <= t
  | EvRelease k _ => k = bucket
  | EvDo req t => built = inr req /\ t0 <= t
  | EvSleep _ => True
  end.

End Dispatcher.

(** ** The bucket and its registry *)

Module ratelimit.

(** Modelled from the spec: the bucket type is declared outside [rest.go].
    The specification gives a bucket a key, the quota triple
    (limit, remaining, resetAt) and an exclusive access primitive; a bucket
    that has not seen a response has [limit = 0], [remaining = 0] and a
    zero [resetAt]. *)
Record bucket := {
  key : string;
  limit : Z;
  remaining : Z;
  resetAt : Z;
  locked : bool
}.

(** Modelled from the spec: the [RateLimiter] type is declared outside
    [rest.go]. The specification describes a mapping from bucket key to
    bucket and a process-wide pause gate, separate from the per-bucket
    locks, that [acquire] consults before it proceeds. *)
Record RateLimiter := {
  buckets : gmap string bucket;
  pausedUntil : Z
}.

Definition unseen (k : string) : bucket :=
  {| key := k; limit := 0; remaining := 0; resetAt := 0; locked := false |}.

(** Modelled from the spec: [resolve(key)] of the registry, missing from
    the sources: the bucket of a key, created on first use. *)
Definition resolve (k : string) (rl : RateLimiter) : bucket :=
  default (unseen k) (buckets rl !! k).

(** Modelled from the spec: [acquire()], missing from the sources. A held
    bucket is not granted. Otherwise the caller first waits for the pause
    gate; then, if [remaining > 0] it proceeds and [remaining] is
    decremented, if [remaining = 0] before [resetAt] it waits until
    [resetAt], and if the quota is unknown it proceeds at once. The result
    is the new limiter and the time the caller was suspended. *)
Definition acquire (k : string) (rl : RateLimiter) (t : Z) : option (RateLimiter * Z) :=
  let b := resolve k rl in
  if locked b then None
  else
    let t1 := Z.max t (pausedUntil rl) in
    let t2 := if Z.eqb (remaining b) 0 && Z.ltb t1 (resetAt b) then resetAt b else t1 in
    let b' := {| key := key b;
                 limit := limit b;
                 remaining := if Z.ltb 0 (remaining b) then remaining b - 1 else remaining b;
                 resetAt := resetAt b;
                 locked := true |} in
    Some ({| buckets := <[k := b']> (buckets rl); pausedUntil := pausedUntil rl |}, t2 - t).

Fixpoint digits (s : string) (acc : Z) : option Z :=
  match s with
  | EmptyString => Some acc
  | String c rest =>
      if http.isDigit c then digits rest (10 * acc + Z.of_N (N_of_ascii c - 48))
      else None
  end.

(** A header value read as a decimal number. *)
Definition parseNumber (s : string) : option Z :=
  match s with
  | EmptyString => None
  | _ => digits s 0
  end.

(** One quota field of the response headers: absent, a number, or text
    that is not a number. *)
Definition field (h : http.Header) (name : string) (old : Z) : Error + Z :=
  if http.Header_Has h name then
    match parseNumber (http.Header_Get h name) with
    | Some n => inr n
    | None => inl ("invalid " +:+ name)
    end
  else inr old.

(** Modelled from the spec: [release(headers | nil)], missing from the
    sources. The exclusive section is always given up. With headers, the
    quota fields they carry overwrite the bucket's and a field they do not
    carry keeps its value; without headers the quota is left as it is. The
    specification gives [release] an error result and no cause for it: the
    one step that can fail in what it describes is reading a quota field,
    so a field that is present and not a number is the error, and the
    quota is then left as it is. *)
Definition release (k : string) (headers : option http.Header)
    (rl : RateLimiter) (t : Z) : RateLimiter * option Error :=
  let b := resolve k rl in
  let unlocked lim rem rst :=
    {| buckets := <[k := {| key := key b; limit := lim; remaining := rem;
                            resetAt := rst; locked := false |}]> (buckets rl);
       pausedUntil := pausedUntil rl |} in
  match headers with
  | None => (unlocked (limit b) (remaining b) (resetAt b), None)
  | Some h =>
      match field h "X-RateLimit-Limit" (limit b),
            field h "X-RateLimit-Remaining" (remaining b),
            field h "X-RateLimit-Reset" (resetAt b) with
      | inr lim, inr rem, inr rst => (unlocked lim rem rst, None)
      | inl e, _, _ | _, inl e, _ | _, _, inl e =>
          (unlocked (limit b) (remaining b) (resetAt b), Some e)
      end
  end.

(** The time at which an acquisition of [k] begun at [t] is granted, if it
    is granted at all. *)
Definition grantedAt (k : string) (rl : RateLimiter) (t : Z) : option Z :=
  match acquire k rl t with
  | Some (_, wait) => Some (t + Z.max 0 wait)
  | None => None
  end.

End ratelimit.

(** Modelled from the spec: [lockBucket] and [lockBucketObject], missing
    from the sources, both are the [acquire] of the specification, the
    first on the bucket the registry resolves for the key, the second on
    the bucket it is handed. *)
#[export] Instance spec_limiter : Limiter ratelimit.RateLimiter := {|
  lockBucket := ratelimit.acquire;
  lockBucketObject := ratelimit.acquire;
  release := ratelimit.release
|}.

(** ** [Interaction.CreateInteractionResponse] *)

(** The dynamic type of a value held in an [any]: a named type (with its
    package) or a pointer to a type. *)
Inductive GoType :=
| TNamed (name : string)
| TPtr (elem : GoType).

(** A non-nil [any]: dynamic type and value. *)
Record Dynamic := {
  dynType : GoType;
  dynValue : Payload
}.

Record Interaction := {
  ID : string;
  ApplicationID : string;
  InteractionToken : string
}.

Definition isNamed (t : GoType) (name : string) : bool :=
  match t with
  | TNamed n => String.eqb n name
  | TPtr _ => false
  end.

(** The three cases of the type switch. *)
Definition acceptedPayloadType (t : GoType) : bool :=
  match t with
  | TPtr (TPtr t) =>
      isNamed t "api.InteractionResponseMessages"
      || isNamed t "api.InteractionResponseAutocomplete"
      || isNamed t "api.InteractionResponseModal"
  | _ => false
  end.

Section Interactions.

(** [firePostRequest], [parseRoute] and the route format are defined
    outside the sources: [routeOf id token] stands for
    [fmt.Sprintf(createInteractionResponse, api, id, token)], and
    [firePostRequest] acts on a world of its own choosing. *)
Context {W : Type}.
Variable firePostRequest :
  string -> option Dynamic -> option string -> W -> (string * option Error) * W.
Variable parseRoute : string -> string.
Variable routeOf : string -> string -> string.

Definition CreateInteractionResponse (i : Interaction) (payload : option Dynamic)
    (w : W) : option Error * W :=
  match payload with
  | Some d =>
      if acceptedPayloadType (dynType d) then
        let u := parseRoute (routeOf (ID i) (InteractionToken i)) in
        let '((_, err), w) := firePostRequest u payload None w in
        match err with
        | Some e => (Some e, w)
        | None => (None, w)
        end
      else (None, w)
  | None => (None, w)
  end.

End Interactions.

(** ** Worlds and replies used in the examples *)

(** An environment in which [http.NewRequest] accepts every method and
    URL. *)
Definition plainEnv : Env := {|
  Token := "s3cr3t";
  UserAgent := "DiscordBot (discord-api-wrapper, v10)";
  requestError := fun _ _ => None
|}.

(** A limiter that has not seen any bucket and is not paused. *)
Definition freshLimiter : ratelimit.RateLimiter :=
  {| ratelimit.buckets := ∅; ratelimit.pausedUntil := 0 |}.

Definition startWorld (t : Z) : World ratelimit.RateLimiter :=
  {| limiter := freshLimiter; now := t; trace := [] |}.

Definition respOf (code : Z) (status : string) (body : Body) : http.Response :=
  {| http.Status := status; http.StatusCode := code;
     http.RespHeader := ∅; http.RespBody := body |}.

(** The transport delivers a response. *)
Definition answered (r : http.Response) : DoReply :=
  {| resp := Some r; err := None; elapsed := 0 |}.

(** The transport gives up: no response, only an error. *)
Definition failed (e : Error) : DoReply :=
  {| resp := None; err := Some e; elapsed := 0 |}.

Definition second : Z := 1000000000.

Definition notFound : http.Response :=
  respOf 404 "404 Not Found" (OtherBody "Unknown Channel" "unexpected end of input").

(** A 429 whose body is a rejection payload. *)
Definition rejection (d : Z) (g : bool) : http.Response :=
  respOf 429 "429 Too Many Requests"
    (RateLimitJSON {| RetryAfter := d; Global := g;
                      Message := "You are being rate limited." |}).

(** A 429 whose body is not JSON, as a proxy in front of the API sends. *)
Definition garbled : http.Response :=
  respOf 429 "429 Too Many Requests"
    (OtherBody "<html>error code: 1015</html>"
       "invalid character '<' looking for beginning of value").

Definition okResponse : http.Response :=
  respOf 200 "200 OK"
    (OtherBody "[]" "json: cannot unmarshal array into Go value of type api.rateLimitResponse").

(** A [chan int] handed in as body: [json] has no encoding for it. *)
Definition channelValue : Payload :=
  Unsupported "json: unsupported type: chan int".

(** The request that a GET of [/items/1] without body puts on the wire. *)
Definition getItem : http.Request :=
  {| http.Method := "GET";
     http.URL := "/items/1";
     http.ReqHeader :=
       http.Header_Set (http.Header_Set ∅ "Authorization" "Bot s3cr3t")
         "User-Agent" "DiscordBot (discord-api-wrapper, v10)";
     http.ReqBody := EmptyString |}.

(** A limiter all of whose buckets are free, and in which the bucket of
    [/items/1] has used up its quota until time 10 s. *)
Definition exhaustedLimiter : ratelimit.RateLimiter :=
  {| ratelimit.buckets :=
       {[ "/items/1" := {| ratelimit.key := "/items/1"; ratelimit.limit := 5;
                           ratelimit.remaining := 0; ratelimit.resetAt := 10 * second;
                           ratelimit.locked := false |} ]};
     ratelimit.pausedUntil := 0 |}.

(** A [firePostRequest] that counts its calls and reports success. *)
Definition countingPost (u : string) (payload : option Dynamic) (reason : option string)
    (calls : nat) : (string * option Error) * nat :=
  ((EmptyString, None), S calls).

(** A [*InteractionResponseMessages] in an [any]: one pointer short of what
    the type switch accepts. *)
Definition singlePointer : Dynamic :=
  {| dynType := TPtr (TNamed "api.InteractionResponseMessages");
     dynValue := Marshals "{}" |}.

Definition doublePointer : Dynamic :=
  {| dynType := TPtr (TPtr (TNamed "api.InteractionResponseMessages"));
     dynValue := Marshals "{}" |}.

Definition someInteraction : Interaction :=
  {| ID := "1001"; ApplicationID := "77"; InteractionToken := "aW50ZXJhY3Rpb24" |}.

(** The world of a request that finds the bucket of [/items/1] exhausted,
    two seconds into the window. *)
Definition exhaustedWorld : World ratelimit.RateLimiter :=
  {| limiter := exhaustedLimiter; now := 2 * second; trace := [] |}.

(** The world in which [/items/1] has just been locked for a first
    request. *)
Definition lockedWorld : World ratelimit.RateLimiter :=
  default (startWorld 0) (callLock "/items/1" (startWorld 0)).

(** Response headers that report a quota used up until time 10 s. *)
Definition quotaHeaders : http.Header :=
  {[ "X-Ratelimit-Limit" := ["5"];
     "X-Ratelimit-Remaining" := ["0"];
     "X-Ratelimit-Reset" := ["10000000000"] ]}.

(** ** The dispatcher's use of its bucket *)

(** The discipline of one bucket, checked along a trace: a lock is taken
    only when the bucket is not held, a release given only when it is, the
    transport called only while it is held, and a sleep taken only while it
    is not. The result is whether the bucket is held at the end, or nothing
    when the trace breaks the discipline. *)
Fixpoint protocol (held : bool) (tr : list Event) : option bool :=
  match tr with
  | [] => Some held
  | EvLock _ _ :: rest => if held then None else protocol true rest
  | EvRelease _ _ :: rest => if held then protocol false rest else None
  | EvDo _ _ :: rest => if held then protocol held rest else None
  | EvSleep _ :: rest => if held then None else protocol held rest
  end.

(** Whether a call that ends in [o] leaves its bucket held. *)
Definition heldAfter (o : Outcome) : bool :=
  match o with
  | Returned _ _ => false
  | Blocked => false
  | Panicked => true
  | NoReply => true
  end.

(** The wait a reply asks for, when it is a 429 with a rejection payload. *)
Definition retryAfterOf (reply : DoReply) : Z :=
  match resp reply with
  | Some r =>
      match json.Decode (http.RespBody r) with
      | inr rlr => RetryAfter rlr
      | inl _ => 0
      end
  | None => 0
  end.

(** A reply that is a rejection the dispatcher can act on. *)
Definition isRejection (reply : DoReply) : Prop :=
  exists r rlr,
    resp reply = Some r /\ err reply = None /\
    http.StatusCode r = http.StatusTooManyRequests /\
    json.Decode (http.RespBody r) = inr rlr.

(** The transport calls of a call that were not followed by a sleep: the
    last one, when there was one. A call that panics has made it; a call
    that returns has made it unless its request could not be built; a call
    that is blocked or left without reply has slept after every one. *)
Definition lastSend (built : Error + http.Request) (o : Outcome) : nat :=
  match o with
  | Panicked => 1
  | Returned _ _ => if built is inr _ then 1 else 0
  | Blocked => 0
  | NoReply => 0
  end.

(** An environment in which [http.NewRequest] refuses a method with a
    space in it, as [net/http] does. *)
Definition strictEnv : Env := {|
  Token := "s3cr3t";
  UserAgent := "DiscordBot (discord-api-wrapper, v10)";
  requestError := fun method _ =>
    if gostrings.Contains method " "%char then Some "net/http: invalid method"
    else None
|}.

(** The transport gives up after its deadline, with the last response it
    saw beside the error. *)
Definition timedOut : DoReply :=
  {| resp := Some (rejection (3 * second) false);
     err := Some "context deadline exceeded";
     elapsed := 30 * second |}.

(** A success whose quota header is not a number. *)
Definition badQuota : http.Response :=
  {| http.Status := "200 OK"; http.StatusCode := 200;
     http.RespHeader := {[ "X-Ratelimit-Remaining" := ["soon"] ]};
     http.RespBody := OtherBody "[]" "unexpected array" |}.

(** ** Endpoints on top of the dispatcher *)

(** How a call of an endpoint ends: with its results, or the way the
    dispatcher call under it ended when that did not return (a nil pointer
    dereference of the endpoint itself ends it as [Panicked]). *)
Inductive Ending (A : Type) :=
| Ends (a : A)
| Fails (o : Outcome).
Arguments Ends {A} _.
Arguments Fails {A} _.

(** A [*Guild], read through [g.ID.String()] only. *)
Record Guild := {
  GuildID : string
}.

Section Emojis.

(** [url.Parse] and [URL.String] are [net/url]'s. The route formats
    ([listGuildEmojis] and the like with [api]) and the [Emoji] type with
    its [ID] are declared outside the sources: [listRoute id] stands for
    [fmt.Sprintf(listGuildEmojis, api, id)], and so on, and [emojiID] for
    [emoji.ID.String()] of an emoji whose [ID] is set. The two decoders are
    [json.NewDecoder(resp.Body).Decode] into a [[]Emoji] and into a
    [*Emoji]. *)
Context {RL : Type} {L : Limiter RL} (env : Env).
Context {URL Emoji : Type}.
Variable url_Parse : string -> Error + URL.
Variable url_String : URL -> string.
Variable listRoute : string -> string.
Variable getRoute : string -> string -> string.
Variable createRoute : string -> string.
Variable modifyRoute : string -> string -> string.
Variable deleteRoute : string -> string -> string.
Variable emojiID : Emoji -> string.
Variable decodeEmojis : Body -> Error + list Emoji.
Variable decodeEmoji : Body -> Error + option Emoji.

Definition ListGuildEmojis (replies : list DoReply) (g : Guild) (w : World RL)
    : Ending (list Emoji * option Error) * World RL :=
  match url_Parse (listRoute (GuildID g)) with
  | inl e => (Ends ([], Some e), w)
  | inr u =>
      match Request env replies "GET" (url_String u) None None w with
      | (Returned resp err, w) =>
          match err with
          | Some e => (Ends ([], Some e), w)
          | None =>
              (* resp.Body, for the deferred Close *)
              match resp with
              | None => (Fails Panicked, w)
              | Some r =>
                  match decodeEmojis (http.RespBody r) with
                  | inl e => (Ends ([], Some e), w)
                  | inr emojis => (Ends (emojis, None), w)
                  end
              end
          end
      | (stuck, w) => (Fails stuck, w)
      end
  end.

Definition GetGuildEmoji (replies : list DoReply) (g : Guild) (emoji : Emoji)
    (w : World RL) : Ending (option Emoji * option Error) * World RL :=
  match url_Parse (getRoute (GuildID g) (emojiID emoji)) with
  | inl e => (Ends (None, Some e), w)
  | inr u =>
      match Request env replies "GET" (url_String u) None None w with
      | (Returned resp err, w) =>
          match err with
          | Some e => (Ends (None, Some e), w)
          | None =>
              match resp with
              | None => (Fails Panicked, w)
              | Some r =>
                  match decodeEmoji (http.RespBody r) with
                  | inl e => (Ends (None, Some e), w)
                  | inr emojis => (Ends (emojis, None), w)
                  end
              end
          end
      | (stuck, w) => (Fails stuck, w)
      end
  end.

(** The payload is a struct value in an [interface{}], never nil. *)
Definition CreateGuildEmoji (replies : list DoReply) (g : Guild) (payload : Payload)
    (reason : option string) (w : World RL)
    : Ending (option Emoji * option Error) * World RL :=
  match url_Parse (createRoute (GuildID g)) with
  | inl e => (Ends (None, Some e), w)
  | inr u =>
      match Request env replies "POST" (url_String u) (Some payload) reason w with
      | (Returned resp err, w) =>
          match err with
          | Some e => (Ends (None, Some e), w)
          | None =>
              match resp with
              | None => (Fails Panicked, w)
              | Some r =>
                  match decodeEmoji (http.RespBody r) with
                  | inl e => (Ends (None, Some e), w)
                  | inr emojis => (Ends (emojis, None), w)
                  end
              end
          end
      | (stuck, w) => (Fails stuck, w)
      end
  end.

Definition ModifyGuildEmoji (replies : list DoReply) (g : Guild) (emoji : Emoji)
    (payload : Payload) (reason : option string) (w : World RL)
    : Ending (option Emoji * option Error) * World RL :=
  match url_Parse (modifyRoute (GuildID g) (emojiID emoji)) with
  | inl e => (Ends (None, Some e), w)
  | inr u =>
      match Request env replies "PATCH" (url_String u) (Some payload) reason w with
      | (Returned resp err, w) =>
          match err with
          | Some e => (Ends (None, Some e), w)
          | None =>
              match resp with
              | None => (Fails Panicked, w)
              | Some r =>
                  match decodeEmoji (http.RespBody r) with
                  | inl e => (Ends (None, Some e), w)
                  | inr e => (Ends (e, None), w)
                  end
              end
          end
      | (stuck, w) => (Fails stuck, w)
      end
  end.

Definition DeleteGuildEmoji (replies : list DoReply) (g : Guild) (emoji : Emoji)
    (reason : option string) (w : World RL) : Ending (option Error) * World RL :=
  match url_Parse (deleteRoute (GuildID g) (emojiID emoji)) with
  | inl e => (Ends (Some e), w)
  | inr u =>
      match Request env replies "DELETE" (url_String u) None reason w with
      | (Returned resp err, w) =>
          match err with
          | Some e => (Ends (Some e), w)
          | None =>
              match resp with
              | None => (Fails Panicked, w)
              | Some r => (Ends None, w)
              end
          end
      | (stuck, w) => (Fails stuck, w)
      end
  end.

End Emojis.

(** ** [Channel.CreateWebhook] *)

(** A [*Channel], read through [c.ID.String()] only. *)
Record Channel := {
  ChannelID : string
}.

(** The anonymous struct [CreateWebhook] posts. *)
Record WebhookParams := {
  ParamName : string;
  ParamAvatar : string
}.

(** The double quote, for the text of the error. *)
Definition quote : string := String (ascii_of_nat 34) EmptyString.

Definition webhookNameError : string :=
  "webhook length is incorrect or the name contains " +:+ quote +:+ "Clyde" +:+ quote.

Section Webhooks.

(** [firePostRequest] (here with a single result, the bytes read),
    [parseRoute], the route format, [json.Unmarshal] into a [*Webhook] and
    the [String] method of [dataurl.DataURL] are defined outside the sources;
    [unicodeLower] is [strings.Map(unicode.ToLower, _)]. The avatar is a
    pointer to a [dataurl.DataURL]: [None] is the nil pointer, on which the
    [String] method, which reads the fields of its receiver, panics. *)
Context {W URL Avatar Webhook : Type}.
Variable unicodeLower : string -> string.
Variable avatarString : Avatar -> string.
Variable parseRoute : string -> URL.
Variable routeOf : string -> string.
Variable firePostRequest : URL -> WebhookParams -> option string -> W -> string * W.
Variable unmarshalWebhook : string -> option Webhook * option Error.

(** The condition of the first [if] of [CreateWebhook]. *)
Definition nameRefused (name : string) : bool :=
  (String.length name <? 1)%nat
  || (80 <? String.length name)%nat
  || gostrings.ContainsString (gostrings.ToLower unicodeLower name) "clyde".

Definition CreateWebhook (c : Channel) (name : string) (avatar : option Avatar)
    (reason : option string) (w : W) : Ending (option Webhook * option Error) * W :=
  if nameRefused name then (Ends (None, Some webhookNameError), w)
  else
    match avatar with
    | None => (Fails Panicked, w)
    | Some a =>
        let params := {| ParamName := name; ParamAvatar := avatarString a |} in
        let u := parseRoute (routeOf (ChannelID c)) in
        let '(bytes, w) := firePostRequest u params reason w in
        (Ends (unmarshalWebhook bytes), w)
    end.

End Webhooks.

(** ** [Interaction.BuildResponse] *)

(** The two enumerations, with the values [iota] gives them. *)
Definition InteractionTypePing : Z := 0 + 1.
Definition InteractionTypeApplicationCommand : Z := 1 + 1.
Definition InteractionTypeMessageComponent : Z := 2 + 1.
Definition InteractionTypeApplicationCommandAutocomplete : Z := 3 + 1.
Definition InteractionTypeModalSubmit : Z := 4 + 1.

Definition Pong : Z := 0 + 1.
Definition ChannelMessageWithSource : Z := 1 + 3.
Definition DeferredChannelMessageWithSource : Z := 2 + 3.
Definition DeferredUpdateMessage : Z := 3 + 3.
Definition UpdateMessage : Z := 4 + 3.
Definition AutocompleteResult : Z := 5 + 3.
Definition Modal : Z := 6 + 3.

Section Responses.

(** The element types of the slices are declared outside the sources. *)
Context {Embed AllowedMentions Component Attachment : Type}.

Record InteractionCallbackDataMessages := {
  TTS : bool;
  Content : string;
  Embeds : list Embed;
  Mentions : option AllowedMentions;
  Flags : Z;
  Components : list Component;
  Attachments : list Attachment
}.

Record InteractionResponseMessages := {
  ResponseType : Z;
  Data : option InteractionCallbackDataMessages
}.

(** [&InteractionCallbackDataMessages{}]. *)
Definition emptyData : InteractionCallbackDataMessages :=
  {| TTS := false; Content := EmptyString; Embeds := []; Mentions := None;
     Flags := 0; Components := []; Attachments := [] |}.

(** [ir.Data.Embeds = append(ir.Data.Embeds, embed)]. *)
Definition appendEmbed (d : InteractionCallbackDataMessages) (embed : Embed)
    : InteractionCallbackDataMessages :=
  {| TTS := TTS d; Content := Content d; Embeds := Embeds d ++ [embed];
     Mentions := Mentions d; Flags := Flags d; Components := Components d;
     Attachments := Attachments d |}.

(** [BuildResponse]; the receiver is read through its [Type] field only,
    which is passed as [interactionType]. *)
Definition BuildResponse (interactionType : Z) (embeds : list Embed)
    : InteractionResponseMessages :=
  let data := fold_left appendEmbed embeds emptyData in
  {| ResponseType :=
       if Z.eqb interactionType InteractionTypeApplicationCommand
       then ChannelMessageWithSource else UpdateMessage;
     Data := Some data |}.

End Responses.

(** A URL kept as its text, for the examples. *)
Definition parseAny (s : string) : Error + string :=
  if gostrings.Contains s " "%char then inl "invalid character in host name" else inr s.

(** Route formats and values for the examples of the endpoints. *)
Definition guildEmojis (g : string) : string := "/guilds/" +:+ g +:+ "/emojis".

Definition guildEmoji (g e : string) : string :=
  "/guilds/" +:+ g +:+ "/emojis/" +:+ e.

Definition someGuild : Guild := {| GuildID := "81384788765712384" |}.

Definition channelWebhooks (c : string) : string := "/channels/" +:+ c +:+ "/webhooks".

Definition someChannel : Channel := {| ChannelID := "41771983423143937" |}.

(** A [firePostRequest] that keeps what it was asked to post. *)
Definition recordingPost (u : string) (params : WebhookParams) (reason : option string)
    (posted : list (string * WebhookParams * option string))
    : string * list (string * WebhookParams * option string) :=
  ("{}", posted ++ [(u, params, reason)]).

(** * Properties *)

(** ** The bucket key *)

Lemma SplitN2_nonempty (s : string) (sep : ascii) :
  gostrings.SplitN s sep 2 <> [].
Proof.
  simpl. destruct (gostrings.Cut s sep) as [[before after]|]; discriminate.
Qed.

Lemma Cut_absent (s : string) (sep : ascii) :
  gostrings.Contains s sep = false -> gostrings.Cut s sep = None.
Proof.
  induction s as [|c rest IH]; simpl; [reflexivity|].
  intros H. apply orb_false_iff in H as [Hc Hrest].
  rewrite Hc, (IH Hrest). reflexivity.
Qed.

Lemma Cut_at_first (p q : string) (sep : ascii) :
  gostrings.Contains p sep = false ->
  gostrings.Cut (p +:+ String sep q) sep = Some (p, q).
Proof.
  induction p as [|c rest IH]; simpl.
  - intros _. rewrite Ascii.eqb_refl. reflexivity.
  - intros H. apply orb_false_iff in H as [Hc Hrest].
    rewrite Hc, (IH Hrest). reflexivity.
Qed.

Lemma withoutQuery_plain (p : string) :
  gostrings.Contains p "?"%char = false -> withoutQuery p = p.
Proof.
  intros H. unfold withoutQuery. simpl. rewrite (Cut_absent _ _ H). reflexivity.
Qed.

Lemma withoutQuery_query (p q : string) :
  gostrings.Contains p "?"%char = false ->
  withoutQuery (p +:+ String "?"%char q) = p.
Proof.
  intros H. unfold withoutQuery. simpl. rewrite (Cut_at_first _ _ _ H). reflexivity.
Qed.

Lemma bucketKey_withoutQuery (route : string) :
  bucketKey route = withoutQuery route.
Proof.
  unfold bucketKey, resolveBucketID.
  destruct (String.eqb (withoutQuery route) EmptyString) eqn:E; reflexivity.
Qed.

(** The key never contains a query string. *)
Lemma Cut_before_clean (s before after : string) (sep : ascii) :
  gostrings.Cut s sep = Some (before, after) ->
  gostrings.Contains before sep = false.
Proof.
  revert before after. induction s as [|c rest IH]; simpl; intros before after H.
  - discriminate.
  - destruct (Ascii.eqb c sep) eqn:Hc.
    + inversion H; subst. reflexivity.
    + destruct (gostrings.Cut rest sep) as [[b' a']|] eqn:Hcut; [|discriminate].
      inversion H; subst. simpl. rewrite Hc. simpl. eapply IH. reflexivity.
Qed.

(** C2, as the code has it. The key under which [Request] locks a bucket is
    the route with its query string removed and nothing else: a route
    without a query is its own key, a query does not change the key, and
    two routes have the same key exactly when their parts before the query
    are the same text, so routes that differ in a path segment never share
    a key. *)
Theorem C2_bucket_key_is_route_without_query (p1 p2 q1 q2 : string) :
  gostrings.Contains p1 "?"%char = false ->
  gostrings.Contains p2 "?"%char = false ->
  bucketKey p1 = p1 /\
  bucketKey (p1 +:+ String "?"%char q1) = p1 /\
  (bucketKey (p1 +:+ String "?"%char q1) = bucketKey (p2 +:+ String "?"%char q2)
   <-> p1 = p2) /\
  (bucketKey p1 = bucketKey p2 <-> p1 = p2).
Proof.
  intros H1 H2.
  rewrite !bucketKey_withoutQuery.
  rewrite (withoutQuery_plain _ H1), (withoutQuery_plain _ H2).
  rewrite (withoutQuery_query _ q1 H1), (withoutQuery_query _ q2 H2).
  repeat split; auto.
Qed.

Lemma C2_bucket_key_witness :
  bucketKey "/channels/42/messages" = "/channels/42/messages" /\
  bucketKey "/channels/42/messages?limit=50" = "/channels/42/messages" /\
  (bucketKey "/channels/42/messages?limit=50" = bucketKey "/channels/7/messages?limit=50"
   <-> "/channels/42/messages" = "/channels/7/messages") /\
  (bucketKey "/channels/42/messages" = bucketKey "/channels/7/messages"
   <-> "/channels/42/messages" = "/channels/7/messages").
Proof.
  apply (C2_bucket_key_is_route_without_query
           "/channels/42/messages" "/channels/7/messages" "limit=50" "limit=50");
    reflexivity.
Defined.

(** C2 as the specification states it fails: [/items/1] and [/items/2]
    differ only in a variable path segment and get different keys, and
    [Request] locks a different bucket for each. *)
Lemma C2_counterexample :
  bucketKey "/items/1" <> bucketKey "/items/2" /\
  trace (snd (Request plainEnv [] "GET" "/items/1" None None (startWorld 0)))
    = [EvLock "/items/1" 0] /\
  trace (snd (Request plainEnv [] "GET" "/items/2" None None (startWorld 0)))
    = [EvLock "/items/2" 0].
Proof.
  split; [|split]; [discriminate | reflexivity | reflexivity].
Qed.

(** ** Reading a trace *)

Lemma sent_app (a b : list Event) : sent (a ++ b) = sent a ++ sent b.
Proof.
  induction a as [|ev a IH]; simpl; [reflexivity|].
  destruct ev; simpl; rewrite ?IH; reflexivity.
Qed.

Lemma released_app (a b : list Event) : released (a ++ b) = released a ++ released b.
Proof.
  induction a as [|ev a IH]; simpl; [reflexivity|].
  destruct ev; simpl; rewrite ?IH; reflexivity.
Qed.

Lemma slept_app (a b : list Event) : slept (a ++ b) = slept a ++ slept b.
Proof.
  induction a as [|ev a IH]; simpl; [reflexivity|].
  destruct ev; simpl; rewrite ?IH; reflexivity.
Qed.

Lemma sent_emitted bucket built t0 (new : list Event) req t :
  Forall (emitted bucket built t0) new ->
  (req, t) ∈ sent new -> built = inr req /\ t0 <= t.
Proof.
  induction 1 as [|ev new Hev _ IH]; simpl.
  - intros H. inversion H.
  - destruct ev; auto. simpl in Hev.
    intros H. apply elem_of_cons in H as [[= -> ->]|H]; auto.
Qed.

(** ** One attempt of [requestWithLockedBucket] *)

Section DispatcherFacts.

Context {RL : Type} {L : Limiter RL} (env : Env).

Lemma Request_unfold replies method route data reason (w : World RL) :
  Request env replies method route data reason w =
  match callLock (bucketKey route) w with
  | None => (Blocked, w)
  | Some w1 =>
      requestWithLockedBucket env replies method route "application/json" data
        (bucketKey route) 0 reason w1
  end.
Proof. reflexivity. Qed.

Lemma callLock_trace bucketID (w w1 : World RL) :
  callLock bucketID w = Some w1 ->
  now w <= now w1 /\ trace w1 = trace w ++ [EvLock bucketID (now w1)].
Proof.
  unfold callLock. destruct (lockBucket _ _ _) as [[rl wait]|]; [|discriminate].
  intros [= <-]. simpl. split; [lia | reflexivity].
Qed.

Lemma callLockObject_trace bucket (w w1 : World RL) :
  callLockObject bucket w = Some w1 ->
  now w <= now w1 /\ trace w1 = trace w ++ [EvLock bucket (now w1)].
Proof.
  unfold callLockObject. destruct (lockBucketObject _ _ _) as [[rl wait]|]; [|discriminate].
  intros [= <-]. simpl. split; [lia | reflexivity].
Qed.

Lemma callRelease_trace bucket headers (w : World RL) :
  now (fst (callRelease bucket headers w)) = now w /\
  trace (fst (callRelease bucket headers w)) = trace w ++ [EvRelease bucket headers].
Proof.
  unfold callRelease. destruct (release _ _ _ _) as [rl e]. simpl. auto.
Qed.

Lemma callRelease_limiter bucket headers (w : World RL) :
  limiter (fst (callRelease bucket headers w))
  = fst (release bucket headers (limiter w) (now w)).
Proof.
  unfold callRelease. destruct (release _ _ _ _) as [rl e]. reflexivity.
Qed.

(** When the body cannot be encoded or [http.NewRequest] refuses the
    request, the attempt releases the bucket and returns the error; the
    transport is not reached. *)
Lemma attempt_without_request replies method route contentType b bucket sequence reason
    (w : World RL) e :
  outbound env method route contentType b = inl e ->
  requestWithLockedBucket env replies method route contentType b bucket sequence reason w
  = (Returned None (Some e), fst (callRelease bucket None w)).
Proof.
  unfold outbound. intros H.
  destruct replies; simpl;
    (destruct (encodeBody b) as [e'|buffer];
     [injection H as ->; destruct (callRelease bucket None w); reflexivity|]);
    (destruct (http_NewRequest env method route buffer) as [e'|req0];
     [injection H as ->; destruct (callRelease bucket None w); reflexivity|discriminate]).
Qed.

(** The transport call of an attempt whose request could be built. *)
Lemma attempt_reaches_transport reply rest method route contentType b bucket sequence
    reason (w : World RL) req :
  outbound env method route contentType b = inr req ->
  requestWithLockedBucket env (reply :: rest) method route contentType b bucket
    sequence reason w
  = let w1 := httpClient_Do req reply w in
    match resp reply with
    | None => (Panicked, w1)
    | Some r =>
        match err reply with
        | Some e => (Returned None (Some e), fst (callRelease bucket None w1))
        | None =>
            let '(w2, rerr) := callRelease bucket (Some (http.RespHeader r)) w1 in
            match rerr with
            | Some e => (Returned None (Some e), w2)
            | None =>
                if Z.eqb (http.StatusCode r) http.StatusTooManyRequests then
                  match json.Decode (http.RespBody r) with
                  | inl e => (Returned None (Some e), w2)
                  | inr rlr =>
                      let w3 := time_Sleep (RetryAfter rlr) w2 in
                      match callLockObject bucket w3 with
                      | None => (Blocked, w3)
                      | Some w4 =>
                          match requestWithLockedBucket env rest method route
                                  contentType b bucket sequence reason w4 with
                          | (Returned resp' _, w5) => (Returned resp' None, w5)
                          | (stuck, w5) => (stuck, w5)
                          end
                      end
                  end
                else (Returned (Some r) None, w2)
            end
        end
    end.
Proof.
  unfold outbound. intros H. simpl.
  destruct (encodeBody b) as [e|buffer]; [discriminate|].
  destruct (http_NewRequest env method route buffer) as [e|req0]; [discriminate|].
  injection H as <-.
  destruct (resp reply) as [r|]; [|reflexivity].
  destruct (err reply) as [e|].
  { destruct (callRelease bucket None _); reflexivity. }
  destruct (callRelease bucket (Some _) _) as [w2 [e|]]; [reflexivity|].
  unfold http.StatusOK, http.StatusCreated, http.StatusNoContent,
    http.StatusBadGateway, http.StatusTooManyRequests.
  destruct (Z.eqb_spec (http.StatusCode r) 200) as [->|]; [reflexivity|].
  destruct (Z.eqb_spec (http.StatusCode r) 201) as [->|]; [reflexivity|].
  destruct (Z.eqb_spec (http.StatusCode r) 204) as [->|]; [reflexivity|].
  destruct (Z.eqb_spec (http.StatusCode r) 502) as [->|]; [reflexivity|].
  reflexivity.
Qed.

Lemma emitted_earlier bucket built (t0 t1 : Z) ev :
  t0 <= t1 -> emitted bucket built t1 ev -> emitted bucket built t0 ev.
Proof.
  intros Hle. destruct ev; simpl; intuition lia.
Qed.

Lemma no_reply_yet method route contentType b bucket sequence reason (w : World RL) req :
  outbound env method route contentType b = inr req ->
  requestWithLockedBucket env [] method route contentType b bucket sequence reason w
  = (NoReply, w).
Proof.
  unfold outbound. intros H. simpl.
  destruct (encodeBody b) as [e|buffer]; [discriminate|].
  destruct (http_NewRequest env method route buffer) as [e|req0]; [discriminate|].
  reflexivity.
Qed.

(** Whatever the replies, a call only appends to the trace, the clock does
    not go back, and everything appended is [emitted]. *)
Lemma attempt_events replies method route contentType b bucket sequence reason :
  forall w : World RL,
  exists new,
    trace (snd (requestWithLockedBucket env replies method route contentType b
                  bucket sequence reason w)) = trace w ++ new /\
    now w <= now (snd (requestWithLockedBucket env replies method route contentType b
                         bucket sequence reason w)) /\
    Forall (emitted bucket (outbound env method route contentType b) (now w)) new.
Proof.
  induction replies as [|reply rest IH]; intros w.
  - destruct (outbound env method route contentType b) as [e|req] eqn:Hout.
    + rewrite (attempt_without_request _ _ _ _ _ _ _ _ _ e Hout). simpl.
      destruct (callRelease_trace bucket None w) as [Hn Ht].
      exists [EvRelease bucket None]. rewrite Hn, Ht.
      repeat split; [lia|]. repeat constructor.
    + rewrite (no_reply_yet _ _ _ _ _ _ _ _ req Hout). simpl.
      exists []. rewrite app_nil_r. repeat split; [lia|constructor].
  - destruct (outbound env method route contentType b) as [e|req] eqn:Hout.
    + rewrite (attempt_without_request _ _ _ _ _ _ _ _ _ e Hout). simpl.
      destruct (callRelease_trace bucket None w) as [Hn Ht].
      exists [EvRelease bucket None]. rewrite Hn, Ht.
      repeat split; [lia|]. repeat constructor.
    + rewrite (attempt_reaches_transport reply rest method route contentType b bucket
                 sequence reason w req Hout). cbv zeta.
      set (w1 := httpClient_Do req reply w).
      assert (Hw1 : trace w1 = trace w ++ [EvDo req (now w)]) by reflexivity.
      assert (Hn1 : now w <= now w1) by (simpl; lia).
      clearbody w1.
      destruct (resp reply) as [r|].
      2:{ simpl. exists [EvDo req (now w)]. rewrite Hw1.
          repeat split; [lia|]. repeat constructor; simpl; auto; lia. }
      destruct (err reply) as [e|].
      { simpl. destruct (callRelease_trace bucket None w1) as [Hn Ht].
        exists [EvDo req (now w); EvRelease bucket None].
        rewrite Hn, Ht, Hw1, <- app_assoc.
        repeat split; [lia|]. repeat constructor; simpl; auto; lia. }
      pose proof (callRelease_trace bucket (Some (http.RespHeader r)) w1) as [Hn2 Ht2].
      destruct (callRelease bucket (Some (http.RespHeader r)) w1) as [w2 rerr].
      simpl in Hn2, Ht2.
      assert (Hbase : exists new,
                 trace w2 = trace w ++ new /\ now w <= now w2 /\
                 Forall (emitted bucket (inr req) (now w)) new).
      { exists [EvDo req (now w); EvRelease bucket (Some (http.RespHeader r))].
        rewrite Ht2, Hw1, <- app_assoc, Hn2.
        repeat split; [lia|]. repeat constructor; simpl; auto; lia. }
      destruct rerr as [e|]; [exact Hbase|].
      destruct (Z.eqb _ _); [|exact Hbase].
      destruct (json.Decode _) as [e|rlr]; [exact Hbase|].
      destruct Hbase as (new & Hnew & Hle & Hall).
      set (w3 := time_Sleep (RetryAfter rlr) w2).
      assert (Hw3 : trace w3 = trace w ++ (new ++ [EvSleep (RetryAfter rlr)])).
      { unfold w3. simpl. rewrite Hnew, <- app_assoc. reflexivity. }
      assert (Hn3 : now w <= now w3) by (unfold w3; simpl; lia).
      destruct (callLockObject bucket w3) as [w4|] eqn:Hlock.
      2:{ simpl. exists (new ++ [EvSleep (RetryAfter rlr)]).
          repeat split; auto. apply Forall_app. split; [assumption|]. repeat constructor. }
      apply callLockObject_trace in Hlock as [Hn4 Ht4].
      destruct (IH w4) as (new' & Hnew' & Hle' & Hall').
      exists (new ++ [EvSleep (RetryAfter rlr)] ++ [EvLock bucket (now w4)] ++ new').
      assert (Hsnd : forall o, snd (let '(out, w5) := o in
                        match out with
                        | Returned resp' _ => (Returned resp' None, w5)
                        | _ => (out, w5)
                        end) = snd o :> World RL).
      { intros [[] ?]; reflexivity. }
      match goal with |- context [snd ?x] =>
        replace (snd x) with
          (snd (requestWithLockedBucket env rest method route contentType b bucket
                  sequence reason w4))
      end.
      2:{ destruct (requestWithLockedBucket env rest method route contentType b bucket
                      sequence reason w4) as [[] ?]; reflexivity. }
      rewrite Hnew', Ht4, Hw3, <- !app_assoc.
      repeat split; [lia|].
      rewrite !Forall_app. repeat split; try assumption.
      * repeat constructor.
      * repeat constructor; simpl; auto; lia.
      * eapply Forall_impl; [exact Hall'|].
        intros ev. apply emitted_earlier. lia.
Qed.

End DispatcherFacts.

(** ** What the caller gets back *)

Section Outcomes.

Context {RL : Type} {L : Limiter RL} (env : Env).

(** C1, as the code has it. When the response of an attempt has any
    status other than 429, on the allow-list of the switch or not, and the
    release accepted its headers, the dispatcher returns that response with
    a nil error. It does not retry: the attempt adds one transport call and
    one release to the trace and leaves the remaining replies alone. Telling
    a 4xx or 5xx from a success is left to the caller. *)
Theorem C1_other_status_returned_with_nil_error reply rest method route contentType b
    bucket sequence reason (w w2 : World RL) req r :
  outbound env method route contentType b = inr req ->
  resp reply = Some r ->
  err reply = None ->
  received req bucket reply r w = (w2, None) ->
  http.StatusCode r <> http.StatusTooManyRequests ->
  requestWithLockedBucket env (reply :: rest) method route contentType b bucket
    sequence reason w = (Returned (Some r) None, w2) /\
  trace w2 = trace w ++ [EvDo req (now w); EvRelease bucket (Some (http.RespHeader r))].
Proof.
  intros Hout Hresp Herr Hrecv Hcode.
  rewrite (attempt_reaches_transport env reply rest method route contentType b bucket
             sequence reason w req Hout). cbv zeta.
  rewrite Hresp, Herr. unfold received in Hrecv.
  pose proof (callRelease_trace bucket (Some (http.RespHeader r))
                (httpClient_Do req reply w)) as [_ Ht].
  rewrite Hrecv in *. simpl in Ht.
  apply Z.eqb_neq in Hcode. rewrite Hcode.
  split; [reflexivity|]. rewrite Ht, <- app_assoc. reflexivity.
Qed.

(** C3, as the code has it. A 429 whose transport call returned no error
    has its headers handed to the release first; up to there the attempt
    adds its transport call and that release to the trace. Then:
    - when the release returns an error, the attempt returns that error
      with a nil response;
    - when the release accepts the headers and the body does not decode as
      a rejection payload, the attempt returns the decoder's error with a
      nil response;
    in both cases the world is the one the release left: nothing is slept,
    the bucket is not locked again and the remaining replies are not used;
    - when the release accepts the headers and the body decodes, the
      dispatcher sleeps once for the payload's [RetryAfter], then locks
      the same bucket again and makes one further attempt with the
      remaining replies; what that attempt returns as response is
      returned. Up to the lock the attempt adds to the trace its transport
      call, its release and that one sleep. *)
Theorem C3_rejection_sleeps_once_and_retries_once reply rest method route contentType b
    bucket sequence reason (w w2 : World RL) req r rerr :
  outbound env method route contentType b = inr req ->
  resp reply = Some r ->
  err reply = None ->
  received req bucket reply r w = (w2, rerr) ->
  http.StatusCode r = http.StatusTooManyRequests ->
  trace w2 = trace w ++ [EvDo req (now w);
                         EvRelease bucket (Some (http.RespHeader r))] /\
  now w2 = now w + Z.max 0 (elapsed reply) /\
  match rerr, json.Decode (http.RespBody r) with
  | Some e, _ =>
      requestWithLockedBucket env (reply :: rest) method route contentType b bucket
        sequence reason w = (Returned None (Some e), w2)
  | None, inl e =>
      requestWithLockedBucket env (reply :: rest) method route contentType b bucket
        sequence reason w = (Returned None (Some e), w2)
  | None, inr rlr =>
      let w3 := time_Sleep (RetryAfter rlr) w2 in
      trace w3 = trace w ++ [EvDo req (now w);
                             EvRelease bucket (Some (http.RespHeader r));
                             EvSleep (RetryAfter rlr)] /\
      now w3 = now w + Z.max 0 (elapsed reply) + Z.max 0 (RetryAfter rlr) /\
      requestWithLockedBucket env (reply :: rest) method route contentType b bucket
        sequence reason w =
      match callLockObject bucket w3 with
      | None => (Blocked, w3)
      | Some w4 =>
          match requestWithLockedBucket env rest method route contentType b bucket
                  sequence reason w4 with
          | (Returned resp' _, w5) => (Returned resp' None, w5)
          | (stuck, w5) => (stuck, w5)
          end
      end
  end.
Proof.
  intros Hout Hresp Herr Hrecv Hcode.
  rewrite (attempt_reaches_transport env reply rest method route contentType b bucket
             sequence reason w req Hout). cbv zeta.
  rewrite Hresp, Herr. unfold received in Hrecv.
  pose proof (callRelease_trace bucket (Some (http.RespHeader r))
                (httpClient_Do req reply w)) as [Hn Ht].
  rewrite Hrecv in *. simpl in Hn, Ht.
  rewrite Hcode, Z.eqb_refl.
  split; [rewrite Ht, <- app_assoc; reflexivity|].
  split; [exact Hn|].
  destruct rerr as [e|]; [reflexivity|].
  destruct (json.Decode (http.RespBody r)) as [e|rlr]; [reflexivity|].
  cbv zeta. split; [|split].
  - simpl. rewrite Ht, <- !app_assoc. reflexivity.
  - simpl. rewrite Hn. reflexivity.
  - reflexivity.
Qed.

(** What a retried request returns as error: nothing, whatever the retry
    returned. *)
Lemma retry_error_is_dropped reply rest method route contentType b
    bucket sequence reason (w w2 w4 w5 : World RL) req r rlr resp' err' :
  outbound env method route contentType b = inr req ->
  resp reply = Some r ->
  err reply = None ->
  received req bucket reply r w = (w2, None) ->
  http.StatusCode r = http.StatusTooManyRequests ->
  json.Decode (http.RespBody r) = inr rlr ->
  callLockObject bucket (time_Sleep (RetryAfter rlr) w2) = Some w4 ->
  requestWithLockedBucket env rest method route contentType b bucket
    sequence reason w4 = (Returned resp' err', w5) ->
  requestWithLockedBucket env (reply :: rest) method route contentType b bucket
    sequence reason w = (Returned resp' None, w5).
Proof.
  intros Hout Hresp Herr Hrecv Hcode Hdec Hlock Hretry.
  rewrite (attempt_reaches_transport env reply rest method route contentType b bucket
             sequence reason w req Hout). cbv zeta.
  rewrite Hresp, Herr. unfold received in Hrecv. rewrite Hrecv.
  rewrite Hcode, Z.eqb_refl, Hdec, Hlock, Hretry. reflexivity.
Qed.

(** A reply without a response ends the attempt in a panic, whatever error
    comes with it: the world is the one the transport call left, with the
    bucket still held. *)
Lemma nil_response_panics reply rest method route contentType b bucket sequence reason
    (w : World RL) req :
  outbound env method route contentType b = inr req ->
  resp reply = None ->
  requestWithLockedBucket env (reply :: rest) method route contentType b bucket
    sequence reason w = (Panicked, httpClient_Do req reply w).
Proof.
  intros Hout Hresp.
  rewrite (attempt_reaches_transport env reply rest method route contentType b bucket
             sequence reason w req Hout). cbv zeta.
  rewrite Hresp. reflexivity.
Qed.

(** C8, as the code has it. [request] locks the bucket before the body is
    encoded. For a body that cannot be encoded, once the lock is granted
    the dispatcher releases that bucket with nil headers and returns the
    encoder's error with a nil response; the transport is not called,
    whatever replies it would have given. *)
Theorem C8_encoding_error_after_lock_before_transport replies method route e reason
    (w : World RL) rl wait :
  lockBucket (bucketKey route) (limiter w) (now w) = Some (rl, wait) ->
  fst (Request env replies method route (Some (Unsupported e)) reason w)
    = Returned None (Some e) /\
  trace (snd (Request env replies method route (Some (Unsupported e)) reason w))
    = trace w ++ [EvLock (bucketKey route) (now w + Z.max 0 wait);
                  EvRelease (bucketKey route) None] /\
  sent (trace (snd (Request env replies method route (Some (Unsupported e)) reason w)))
    = sent (trace w).
Proof.
  intros Hlock. rewrite Request_unfold. unfold callLock. rewrite Hlock.
  rewrite (attempt_without_request env replies method route "application/json"
             (Some (Unsupported e)) (bucketKey route) 0 reason _ e eq_refl).
  match goal with |- context [callRelease ?k ?h ?w1] =>
    pose proof (callRelease_trace k h w1) as [_ Ht] end.
  simpl in *. rewrite Ht, <- app_assoc. simpl.
  repeat split.
  rewrite sent_app. simpl. apply app_nil_r.
Qed.

End Outcomes.

(** ** The dispatcher at work on concrete replies *)

Lemma C1_other_status_witness :
  requestWithLockedBucket plainEnv [answered notFound] "GET" "/items/1"
    "application/json" None "/items/1" 0 None (startWorld 0)
  = (Returned (Some notFound) None,
     fst (received getItem "/items/1" (answered notFound) notFound (startWorld 0))) /\
  trace (fst (received getItem "/items/1" (answered notFound) notFound (startWorld 0)))
  = trace (startWorld 0) ++ [EvDo getItem 0; EvRelease "/items/1" (Some ∅)].
Proof.
  apply (C1_other_status_returned_with_nil_error plainEnv (answered notFound) []
           "GET" "/items/1" "application/json" None "/items/1" 0 None
           (startWorld 0) _ getItem notFound);
    [reflexivity | reflexivity | reflexivity | reflexivity | discriminate].
Defined.

(** C1 as the specification states it fails: a 404 is neither the
    rejection status nor on the allow-list, and the caller gets the
    response with a nil error. *)
Lemma C1_counterexample :
  http.StatusCode notFound = 404 /\
  fst (Request plainEnv [answered notFound] "GET" "/items/1" None None (startWorld 0))
  = Returned (Some notFound) None /\
  ~ (exists e, fst (Request plainEnv [answered notFound] "GET" "/items/1" None None
                      (startWorld 0)) = Returned (Some notFound) (Some e)).
Proof.
  split; [reflexivity|]. split; [reflexivity|].
  intros [e H]. discriminate H.
Qed.

Lemma C3_rejection_witness :
  let w2 := fst (received getItem "/items/1" (answered (rejection (3 * second) false))
                   (rejection (3 * second) false) (startWorld 0)) in
  let w3 := time_Sleep (3 * second) w2 in
  trace w2 = trace (startWorld 0) ++ [EvDo getItem 0; EvRelease "/items/1" (Some ∅)] /\
  now w2 = 0 + Z.max 0 0 /\
  trace w3 = trace (startWorld 0) ++ [EvDo getItem 0;
                                      EvRelease "/items/1" (Some ∅);
                                      EvSleep (3 * second)] /\
  now w3 = 0 + Z.max 0 0 + Z.max 0 (3 * second) /\
  requestWithLockedBucket plainEnv
    [answered (rejection (3 * second) false); answered okResponse]
    "GET" "/items/1" "application/json" None "/items/1" 0 None (startWorld 0) =
  match callLockObject "/items/1" w3 with
  | None => (Blocked, w3)
  | Some w4 =>
      match requestWithLockedBucket plainEnv [answered okResponse] "GET" "/items/1"
              "application/json" None "/items/1" 0 None w4 with
      | (Returned resp' _, w5) => (Returned resp' None, w5)
      | (stuck, w5) => (stuck, w5)
      end
  end.
Proof.
  exact (C3_rejection_sleeps_once_and_retries_once plainEnv
           (answered (rejection (3 * second) false)) [answered okResponse]
           "GET" "/items/1" "application/json" None "/items/1" 0 None
           (startWorld 0) _ getItem (rejection (3 * second) false) None
           eq_refl eq_refl eq_refl eq_refl eq_refl).
Defined.

(** C3 as the specification states it fails: a 429 whose body is not a
    rejection payload makes the dispatcher return the decoder's error; it
    does not sleep and does not retry, although the transport had a further
    reply to give. *)
Lemma C3_counterexample :
  http.StatusCode garbled = 429 /\
  fst (Request plainEnv [answered garbled; answered okResponse] "GET" "/items/1"
         None None (startWorld 0))
  = Returned None (Some "invalid character '<' looking for beginning of value") /\
  slept (trace (snd (Request plainEnv [answered garbled; answered okResponse] "GET"
                       "/items/1" None None (startWorld 0)))) = [] /\
  sent (trace (snd (Request plainEnv [answered garbled; answered okResponse] "GET"
                      "/items/1" None None (startWorld 0)))) = [(getItem, 0)].
Proof.
  repeat split; reflexivity.
Qed.

(** The same two replies behind a well-formed rejection are both used: one
    sleep, two transport calls. *)
Example rejection_then_success :
  fst (Request plainEnv [answered (rejection (3 * second) false); answered okResponse]
         "GET" "/items/1" None None (startWorld 0))
  = Returned (Some okResponse) None /\
  slept (trace (snd (Request plainEnv
                       [answered (rejection (3 * second) false); answered okResponse]
                       "GET" "/items/1" None None (startWorld 0)))) = [3 * second] /\
  sent (trace (snd (Request plainEnv
                      [answered (rejection (3 * second) false); answered okResponse]
                      "GET" "/items/1" None None (startWorld 0))))
  = [(getItem, 0); (getItem, 3 * second)].
Proof.
  repeat split; reflexivity.
Qed.

(** C5, at the failing input. The server rejects the first attempt with a
    well-formed 429 and answers the retry with a 429 that does not decode.
    The retry on its own returns the decoder's error; the caller of the
    retried request gets a nil response and a nil error. *)
Theorem C5_retry_error_replaced_by_nil :
  fst (Request plainEnv [answered garbled] "GET" "/items/1" None None (startWorld 0))
  = Returned None (Some "invalid character '<' looking for beginning of value") /\
  fst (Request plainEnv [answered (rejection (3 * second) false); answered garbled]
         "GET" "/items/1" None None (startWorld 0))
  = Returned None None /\
  sent (trace (snd (Request plainEnv
                      [answered (rejection (3 * second) false); answered garbled]
                      "GET" "/items/1" None None (startWorld 0))))
  = [(getItem, 0); (getItem, 3 * second)].
Proof.
  repeat split; reflexivity.
Qed.

(** C6, at the failing input. The transport fails to connect and returns a
    nil response with its error. The dispatcher reads [resp.Status] first:
    the call panics, the error is not returned and the bucket that was
    locked for the request is not released. *)
Theorem C6_transport_failure_panics_before_release :
  fst (Request plainEnv [failed "dial tcp: connection refused"] "GET" "/items/1"
         None None (startWorld 0)) = Panicked /\
  trace (snd (Request plainEnv [failed "dial tcp: connection refused"] "GET" "/items/1"
                None None (startWorld 0)))
  = [EvLock "/items/1" 0; EvDo getItem 0] /\
  released (trace (snd (Request plainEnv [failed "dial tcp: connection refused"] "GET"
                          "/items/1" None None (startWorld 0)))) = [].
Proof.
  repeat split; reflexivity.
Qed.

(** With a response beside the error the same path does what the
    specification says: release with nil headers, nil response, the error. *)
Example transport_error_with_response :
  fst (Request plainEnv
         [{| resp := Some okResponse; err := Some "context deadline exceeded";
             elapsed := 30 * second |}]
         "GET" "/items/1" None None (startWorld 0))
  = Returned None (Some "context deadline exceeded") /\
  released (trace (snd (Request plainEnv
         [{| resp := Some okResponse; err := Some "context deadline exceeded";
             elapsed := 30 * second |}]
         "GET" "/items/1" None None (startWorld 0)))) = [("/items/1", None)].
Proof.
  repeat split; reflexivity.
Qed.

Lemma C8_encoding_error_witness :
  fst (Request plainEnv [answered okResponse] "POST" "/items/1?wait=true"
         (Some (Unsupported "json: unsupported type: chan int")) None (startWorld 0))
    = Returned None (Some "json: unsupported type: chan int") /\
  trace (snd (Request plainEnv [answered okResponse] "POST" "/items/1?wait=true"
                (Some (Unsupported "json: unsupported type: chan int")) None
                (startWorld 0)))
    = trace (startWorld 0) ++ [EvLock (bucketKey "/items/1?wait=true") (0 + Z.max 0 0);
                               EvRelease (bucketKey "/items/1?wait=true") None] /\
  sent (trace (snd (Request plainEnv [answered okResponse] "POST" "/items/1?wait=true"
                      (Some (Unsupported "json: unsupported type: chan int")) None
                      (startWorld 0))))
    = sent (trace (startWorld 0)).
Proof.
  apply (C8_encoding_error_after_lock_before_transport plainEnv [answered okResponse]
           "POST" "/items/1?wait=true" "json: unsupported type: chan int" None
           (startWorld 0)
           {| ratelimit.buckets :=
                {[ "/items/1" := {| ratelimit.key := "/items/1"; ratelimit.limit := 0;
                                    ratelimit.remaining := 0; ratelimit.resetAt := 0;
                                    ratelimit.locked := true |} ]};
              ratelimit.pausedUntil := 0 |} 0).
  reflexivity.
Defined.

(** C8 as the specification states it fails: the encoding error does not
    come before the acquisition of the bucket. The trace of a request whose
    body cannot be encoded starts with the lock of its bucket. *)
Lemma C8_counterexample :
  fst (Request plainEnv [answered okResponse] "POST" "/items/1" (Some channelValue)
         None (startWorld 0))
  = Returned None (Some "json: unsupported type: chan int") /\
  trace (snd (Request plainEnv [answered okResponse] "POST" "/items/1"
                (Some channelValue) None (startWorld 0)))
  = [EvLock "/items/1" 0; EvRelease "/items/1" None].
Proof.
  split; reflexivity.
Qed.

(** ** The headers of an outbound request *)

Section Headers.

Context {RL : Type} {L : Limiter RL} (env : Env).

Lemma canonical_keys :
  http.CanonicalHeaderKey "Authorization" = "Authorization" /\
  http.CanonicalHeaderKey "Content-Type" = "Content-Type" /\
  http.CanonicalHeaderKey "User-Agent" = "User-Agent" /\
  http.CanonicalHeaderKey "X-Audit-Log-Reason" = "X-Audit-Log-Reason".
Proof. repeat split; reflexivity. Qed.

(** The header map of a request that was built: two or three entries. *)
Lemma outbound_header method route contentType b req :
  outbound env method route contentType b = inr req ->
  http.ReqHeader req =
    <["User-Agent" := [UserAgent env]]>
      (match b with
       | Some _ => <["Content-Type" := [contentType]]>
       | None => fun h => h
       end (<["Authorization" := ["Bot " +:+ Token env]]> ∅)).
Proof.
  unfold outbound. destruct (encodeBody b) as [e|buffer]; [discriminate|].
  unfold http_NewRequest. destruct (requestError env method route); [discriminate|].
  intros [= <-]. destruct canonical_keys as (Ha & Hc & Hu & _).
  unfold withHeaders, setHeader, http.Header_Set.
  rewrite !Ha, !Hu.
  destruct b; cbv beta iota; cbn [http.ReqHeader]; rewrite ?Hc; reflexivity.
Qed.

Lemma header_without_body (a u : list string) :
  let h : http.Header := <["User-Agent" := u]> (<["Authorization" := a]> ∅) in
  h !! "Authorization" = Some a /\ h !! "User-Agent" = Some u /\
  h !! "Content-Type" = None /\ h !! "X-Audit-Log-Reason" = None /\
  dom h ⊆ {[ "Authorization"; "Content-Type"; "User-Agent" ]}.
Proof.
  cbv zeta. split; [reflexivity|]. split; [reflexivity|].
  split; [reflexivity|]. split; [reflexivity|].
  rewrite !dom_insert_L, dom_empty_L. intros k.
  rewrite !elem_of_union, !elem_of_singleton, elem_of_empty. tauto.
Qed.

Lemma header_with_body (a c u : list string) :
  let h : http.Header :=
    <["User-Agent" := u]> (<["Content-Type" := c]> (<["Authorization" := a]> ∅)) in
  h !! "Authorization" = Some a /\ h !! "User-Agent" = Some u /\
  h !! "Content-Type" = Some c /\ h !! "X-Audit-Log-Reason" = None /\
  dom h ⊆ {[ "Authorization"; "Content-Type"; "User-Agent" ]}.
Proof.
  cbv zeta. split; [reflexivity|]. split; [reflexivity|].
  split; [reflexivity|]. split; [reflexivity|].
  rewrite !dom_insert_L, dom_empty_L. intros k.
  rewrite !elem_of_union, !elem_of_singleton, elem_of_empty. tauto.
Qed.

Lemma outbound_header_facts method route contentType b req :
  outbound env method route contentType b = inr req ->
  http.Header_Get (http.ReqHeader req) "Authorization" = "Bot " +:+ Token env /\
  http.Header_Get (http.ReqHeader req) "User-Agent" = UserAgent env /\
  (http.Header_Has (http.ReqHeader req) "Content-Type" = true <-> b <> None) /\
  (b <> None -> http.Header_Get (http.ReqHeader req) "Content-Type" = contentType) /\
  http.Header_Has (http.ReqHeader req) "X-Audit-Log-Reason" = false /\
  dom (http.ReqHeader req) ⊆ {[ "Authorization"; "Content-Type"; "User-Agent" ]}.
Proof.
  intros H. rewrite (outbound_header _ _ _ _ _ H).
  destruct canonical_keys as (Ha & Hc & Hu & Hx).
  unfold http.Header_Get, http.Header_Has. rewrite Ha, Hc, Hu, Hx.
  destruct b as [v|]; cbv beta iota.
  - destruct (header_with_body ["Bot " +:+ Token env] [contentType] [UserAgent env])
      as (-> & -> & -> & -> & Hdom).
    split; [reflexivity|]. split; [reflexivity|].
    split; [split; [discriminate | intros _; apply bool_decide_eq_true; eauto]|].
    split; [reflexivity|].
    split; [|exact Hdom].
    apply bool_decide_eq_false. intros [? ?]; discriminate.
  - destruct (header_without_body ["Bot " +:+ Token env] [UserAgent env])
      as (-> & -> & -> & -> & Hdom).
    split; [reflexivity|]. split; [reflexivity|].
    split.
    { split; [|congruence].
      intros Hb. apply bool_decide_eq_true in Hb as [? ?]. discriminate. }
    split; [congruence|].
    split; [|exact Hdom].
    apply bool_decide_eq_false. intros [? ?]; discriminate.
Qed.

(** C7, the parts that hold and the part that does not. Every request that
    [Request] puts on the wire carries the authorization header
    [Bot <token>] and the fixed User-Agent, and it carries a content type,
    [application/json], exactly when a body was given. It carries no other
    header: whatever [reason] the caller supplies, there is no
    [X-Audit-Log-Reason] on the request. *)
Theorem C7_headers_of_every_request_sent replies method route data
    (reason : option string) (w : World RL) :
  exists new,
    trace (snd (Request env replies method route data reason w)) = trace w ++ new /\
    Forall (fun sending =>
      let h := http.ReqHeader (fst sending) in
      http.Header_Get h "Authorization" = "Bot " +:+ Token env /\
      http.Header_Get h "User-Agent" = UserAgent env /\
      (http.Header_Has h "Content-Type" = true <-> data <> None) /\
      (data <> None -> http.Header_Get h "Content-Type" = "application/json") /\
      http.Header_Has h "X-Audit-Log-Reason" = false /\
      dom h ⊆ {[ "Authorization"; "Content-Type"; "User-Agent" ]}) (sent new).
Proof.
  rewrite Request_unfold.
  destruct (callLock (bucketKey route) w) as [w1|] eqn:Hlock.
  2:{ exists []. simpl. rewrite app_nil_r. split; [reflexivity|constructor]. }
  apply callLock_trace in Hlock as [_ Ht1].
  destruct (attempt_events env replies method route "application/json" data
              (bucketKey route) 0 reason w1) as (new & Hnew & _ & Hall).
  exists ([EvLock (bucketKey route) (now w1)] ++ new).
  rewrite Hnew, Ht1, <- app_assoc. split; [reflexivity|].
  rewrite sent_app. simpl.
  apply Forall_forall. intros [req t] Hin.
  destruct (sent_emitted _ _ _ _ _ _ Hall Hin) as [Hout _].
  simpl. apply (outbound_header_facts _ _ _ _ _ Hout).
Qed.

End Headers.

(** C7 at the failing input: a DELETE with the reason [cleanup] goes out
    with the authorization and User-Agent headers only. *)
Example reason_is_not_sent :
  sent (trace (snd (Request plainEnv [answered okResponse] "DELETE" "/webhooks/7" None
                      (Some "cleanup") (startWorld 0))))
  = [({| http.Method := "DELETE"; http.URL := "/webhooks/7";
         http.ReqHeader :=
           {[ "Authorization" := ["Bot s3cr3t"];
              "User-Agent" := ["DiscordBot (discord-api-wrapper, v10)"] ]};
         http.ReqBody := EmptyString |}, 0)].
Proof. reflexivity. Qed.

(** ** Responding to an interaction *)

Lemma acceptedPayloadType_spec (t : GoType) :
  acceptedPayloadType t = true <->
  t = TPtr (TPtr (TNamed "api.InteractionResponseMessages")) \/
  t = TPtr (TPtr (TNamed "api.InteractionResponseAutocomplete")) \/
  t = TPtr (TPtr (TNamed "api.InteractionResponseModal")).
Proof.
  split.
  - destruct t as [n|[n|[n|t]]]; simpl; try discriminate.
    rewrite !orb_true_iff, !String.eqb_eq. intuition congruence.
  - intros [-> | [-> | ->]]; reflexivity.
Qed.

(** C10. A payload whose dynamic type is none of
    [**InteractionResponseMessages], [**InteractionResponseAutocomplete] and
    [**InteractionResponseModal] (a nil payload has no dynamic type at all)
    makes [CreateInteractionResponse] return a nil error without calling
    [firePostRequest]: the world is the one it was given, whatever
    [firePostRequest] would have done to it. *)
Theorem C10_unsupported_payload_is_dropped {W : Type}
    (firePostRequest :
       string -> option Dynamic -> option string -> W -> (string * option Error) * W)
    (parseRoute : string -> string) (routeOf : string -> string -> string)
    (i : Interaction) (payload : option Dynamic) (w : W) :
  (forall d, payload = Some d ->
     dynType d <> TPtr (TPtr (TNamed "api.InteractionResponseMessages")) /\
     dynType d <> TPtr (TPtr (TNamed "api.InteractionResponseAutocomplete")) /\
     dynType d <> TPtr (TPtr (TNamed "api.InteractionResponseModal"))) ->
  CreateInteractionResponse firePostRequest parseRoute routeOf i payload w = (None, w).
Proof.
  intros H. unfold CreateInteractionResponse.
  destruct payload as [d|]; [|reflexivity].
  destruct (acceptedPayloadType (dynType d)) eqn:Hacc; [|reflexivity].
  apply acceptedPayloadType_spec in Hacc.
  destruct (H d eq_refl) as (H1 & H2 & H3). intuition congruence.
Qed.

Lemma C10_unsupported_payload_witness :
  CreateInteractionResponse countingPost (fun u => u)
    (fun id token => "/interactions/" +:+ id +:+ "/" +:+ token +:+ "/callback")
    someInteraction (Some singlePointer) 0%nat = (None, 0%nat).
Proof.
  apply (C10_unsupported_payload_is_dropped countingPost (fun u => u)
           (fun id token => "/interactions/" +:+ id +:+ "/" +:+ token +:+ "/callback")
           someInteraction (Some singlePointer) 0%nat).
  intros d [= <-]. repeat split; discriminate.
Defined.

(** An accepted payload does reach [firePostRequest]. *)
Example accepted_payload_is_posted :
  CreateInteractionResponse countingPost (fun u => u)
    (fun id token => "/interactions/" +:+ id +:+ "/" +:+ token +:+ "/callback")
    someInteraction (Some doublePointer) 0%nat = (None, 1%nat) /\
  CreateInteractionResponse countingPost (fun u => u)
    (fun id token => "/interactions/" +:+ id +:+ "/" +:+ token +:+ "/callback")
    someInteraction None 0%nat = (None, 0%nat).
Proof. split; reflexivity. Qed.

(** ** The limiter of the specification *)

Lemma release_unlocks k headers rl t :
  exists lim rem rst,
    fst (ratelimit.release k headers rl t) =
    {| ratelimit.buckets :=
         <[k := {| ratelimit.key := ratelimit.key (ratelimit.resolve k rl);
                   ratelimit.limit := lim; ratelimit.remaining := rem;
                   ratelimit.resetAt := rst; ratelimit.locked := false |}]>
           (ratelimit.buckets rl);
       ratelimit.pausedUntil := ratelimit.pausedUntil rl |}.
Proof.
  unfold ratelimit.release. destruct headers as [h|]; [|eauto].
  repeat match goal with
         | |- context [match ratelimit.field ?h ?n ?o with _ => _ end] =>
             destruct (ratelimit.field h n o)
         end; simpl; eauto.
Qed.

(** A free bucket whose quota is used up is granted at its reset time, or
    when the pause gate opens if that is later. *)
Lemma acquire_exhausted k rl t :
  ratelimit.locked (ratelimit.resolve k rl) = false ->
  ratelimit.remaining (ratelimit.resolve k rl) = 0 ->
  t < ratelimit.resetAt (ratelimit.resolve k rl) ->
  exists rl' wait,
    ratelimit.acquire k rl t = Some (rl', wait) /\
    t + Z.max 0 wait
    = Z.max (ratelimit.resetAt (ratelimit.resolve k rl)) (ratelimit.pausedUntil rl).
Proof.
  intros Hfree Hrem Hlt. unfold ratelimit.acquire. rewrite Hfree, Hrem. simpl.
  eexists _, _. split; [reflexivity|].
  destruct (Z.ltb_spec (Z.max t (ratelimit.pausedUntil rl))
              (ratelimit.resetAt (ratelimit.resolve k rl))); lia.
Qed.

Lemma acquire_held k rl t :
  ratelimit.locked (ratelimit.resolve k rl) = true -> ratelimit.acquire k rl t = None.
Proof.
  intros H. unfold ratelimit.acquire. rewrite H. reflexivity.
Qed.

(** ** The body of a rejection *)

Section Rejections.

Context {RL : Type} {L : Limiter RL} (env : Env).

(** X17: of the body of a 429 the dispatcher reads the [RetryAfter] of the
    decoded payload and nothing else. Two 429 responses with the same
    headers, whose bodies decode to payloads with the same [RetryAfter]
    (or fail to decode with the same error), are handled alike, whatever
    the limiter: same outcome, same limiter state, same trace. The
    [Global] flag and the [Message] of the payload are never looked at,
    and the release is given the headers only. *)
Theorem rejection_body_only_RetryAfter_is_read r r' e el rest method route contentType
    b bucket sequence reason (w : World RL) :
  http.StatusCode r = http.StatusTooManyRequests ->
  http.StatusCode r' = http.StatusTooManyRequests ->
  http.RespHeader r = http.RespHeader r' ->
  match json.Decode (http.RespBody r), json.Decode (http.RespBody r') with
  | inr rlr, inr rlr' => RetryAfter rlr = RetryAfter rlr'
  | inl e1, inl e2 => e1 = e2
  | _, _ => False
  end ->
  requestWithLockedBucket env ({| resp := Some r; err := e; elapsed := el |} :: rest)
    method route contentType b bucket sequence reason w =
  requestWithLockedBucket env ({| resp := Some r'; err := e; elapsed := el |} :: rest)
    method route contentType b bucket sequence reason w.
Proof.
  intros Hc Hc' Hh Hsame.
  destruct (outbound env method route contentType b) as [e0|req] eqn:Hout.
  { rewrite !(attempt_without_request env _ method route contentType b bucket
                sequence reason w e0 Hout). reflexivity. }
  rewrite !(attempt_reaches_transport env _ rest method route contentType b bucket
              sequence reason w req Hout).
  cbv zeta. cbn [resp err elapsed].
  rewrite Hc, Hc', Z.eqb_refl, <- Hh.
  change (httpClient_Do req {| resp := Some r'; err := e; elapsed := el |} w)
    with (httpClient_Do req {| resp := Some r; err := e; elapsed := el |} w).
  destruct e as [e|]; [reflexivity|].
  destruct (callRelease bucket _ _) as [w2 [e|]]; [reflexivity|].
  destruct (json.Decode (http.RespBody r)) as [e1|rlr],
           (json.Decode (http.RespBody r')) as [e2|rlr'];
    try contradiction.
  - rewrite Hsame. reflexivity.
  - rewrite Hsame. reflexivity.
Qed.

End Rejections.

Lemma rejection_body_witness :
  requestWithLockedBucket plainEnv
    [answered (rejection (3 * second) true); answered okResponse]
    "GET" "/items/1" "application/json" None "/items/1" 0 None lockedWorld =
  requestWithLockedBucket plainEnv
    [answered (rejection (3 * second) false); answered okResponse]
    "GET" "/items/1" "application/json" None "/items/1" 0 None lockedWorld.
Proof.
  apply (rejection_body_only_RetryAfter_is_read plainEnv (rejection (3 * second) true)
           (rejection (3 * second) false) None 0 [answered okResponse] "GET" "/items/1"
           "application/json" None "/items/1" 0 None lockedWorld);
    reflexivity.
Defined.

(** ** A bucket whose quota is used up *)

(** The first thing an attempt with a request and a reply adds to the trace
    is its transport call, at the time the attempt starts. *)
Lemma attempt_sends_first {RL : Type} {L : Limiter RL} (env : Env) reply rest method
    route contentType b bucket sequence reason (w : World RL) req :
  outbound env method route contentType b = inr req ->
  exists tail,
    trace (snd (requestWithLockedBucket env (reply :: rest) method route contentType b
                  bucket sequence reason w))
    = trace w ++ EvDo req (now w) :: tail.
Proof.
  intros Hout.
  rewrite (attempt_reaches_transport env reply rest method route contentType b bucket
             sequence reason w req Hout). cbv zeta.
  set (w1 := httpClient_Do req reply w).
  assert (Hw1 : trace w1 = trace w ++ [EvDo req (now w)]) by reflexivity.
  clearbody w1.
  assert (Hgrow : forall (w' : World RL) tail, trace w' = trace w1 ++ tail ->
            exists tail', trace w' = trace w ++ EvDo req (now w) :: tail').
  { intros w' tail ->. exists tail. rewrite Hw1, <- app_assoc. reflexivity. }
  destruct (resp reply) as [r|]; [|apply (Hgrow _ []); simpl; symmetry; apply app_nil_r].
  destruct (err reply) as [e|].
  { simpl. destruct (callRelease_trace bucket None w1) as [_ Ht]. eapply Hgrow, Ht. }
  pose proof (callRelease_trace bucket (Some (http.RespHeader r)) w1) as [_ Ht2].
  destruct (callRelease bucket (Some (http.RespHeader r)) w1) as [w2 rerr].
  simpl in Ht2.
  destruct rerr as [e|]; [eapply Hgrow, Ht2|].
  destruct (Z.eqb _ _); [|eapply Hgrow, Ht2].
  destruct (json.Decode _) as [e|rlr]; [eapply Hgrow, Ht2|].
  destruct (callLockObject bucket (time_Sleep (RetryAfter rlr) w2)) as [w4|] eqn:Hlock.
  2:{ apply (Hgrow (time_Sleep (RetryAfter rlr) w2)
               ([EvRelease bucket (Some (http.RespHeader r))] ++ [EvSleep (RetryAfter rlr)])).
      simpl. rewrite Ht2, <- app_assoc. reflexivity. }
  apply callLockObject_trace in Hlock as [_ Ht4]. simpl in Ht4.
  destruct (attempt_events env rest method route contentType b bucket sequence reason w4)
    as (new & Hnew & _ & _).
  destruct (requestWithLockedBucket env rest method route contentType b bucket
              sequence reason w4) as [out w5].
  simpl in Hnew.
  assert (Hw5 : exists tail', trace w5 = trace w ++ EvDo req (now w) :: tail').
  { eapply Hgrow. rewrite Hnew, Ht4, Ht2, <- !app_assoc. reflexivity. }
  destruct out; exact Hw5.
Qed.

(** C9. A request that starts while the bucket of its route has
    [remaining = 0] and the time is before the bucket's [resetAt] reaches
    the transport at no time before [resetAt], on the first attempt and on
    every retry. If the bucket is free, the request is built and the
    transport replies, the request does go out, at [resetAt] (or when the
    pause gate opens, if that is later): the caller has waited and then
    proceeds. *)
Theorem C9_exhausted_bucket_waits_for_reset env replies method route data reason
    (w : World ratelimit.RateLimiter) (b : ratelimit.bucket) :
  ratelimit.resolve (bucketKey route) (limiter w) = b ->
  ratelimit.remaining b = 0 ->
  now w < ratelimit.resetAt b ->
  exists new,
    trace (snd (Request env replies method route data reason w)) = trace w ++ new /\
    (forall req t, (req, t) ∈ sent new -> ratelimit.resetAt b <= t) /\
    (ratelimit.locked b = false ->
     forall req reply rest,
       outbound env method route "application/json" data = inr req ->
       replies = reply :: rest ->
       exists tail,
         new = EvLock (bucketKey route)
                 (Z.max (ratelimit.resetAt b) (ratelimit.pausedUntil (limiter w)))
               :: EvDo req (Z.max (ratelimit.resetAt b) (ratelimit.pausedUntil (limiter w)))
               :: tail).
Proof.
  intros Hb Hrem Hlt. rewrite Request_unfold. unfold callLock. simpl lockBucket.
  destruct (ratelimit.locked b) eqn:Hlocked.
  - rewrite acquire_held by (rewrite Hb; exact Hlocked).
    exists []. simpl. rewrite app_nil_r. split; [reflexivity|].
    split; [|discriminate]. intros req t Hin. inversion Hin.
  - subst b.
    destruct (acquire_exhausted (bucketKey route) (limiter w) (now w) Hlocked Hrem Hlt)
      as (rl' & wait & -> & Htime).
    rewrite Htime. clear Htime.
    set (T := Z.max (ratelimit.resetAt _) (ratelimit.pausedUntil _)).
    set (w1 := {| limiter := rl'; now := T;
                  trace := trace w ++ [EvLock (bucketKey route) T] |}).
    destruct (attempt_events env replies method route "application/json" data
                (bucketKey route) 0 reason w1) as (new & Hnew & _ & Hall).
    exists (EvLock (bucketKey route) T :: new).
    split; [rewrite Hnew; unfold w1; simpl; rewrite <- app_assoc; reflexivity|].
    split.
    + intros req t Hin. simpl in Hin.
      destruct (sent_emitted _ _ _ _ _ _ Hall Hin) as [_ Hle].
      simpl in Hle. unfold T in Hle. lia.
    + intros _ req reply rest Hout ->.
      destruct (attempt_sends_first env reply rest method route "application/json" data
                  (bucketKey route) 0 reason w1 req Hout) as (tail & Htail).
      rewrite Hnew in Htail. apply app_inv_head in Htail.
      exists tail. rewrite Htail. reflexivity.
Qed.

Lemma C9_exhausted_bucket_witness :
  exists new,
    trace (snd (Request plainEnv [answered okResponse] "GET" "/items/1" None None
                  exhaustedWorld)) = trace exhaustedWorld ++ new /\
    (forall req t, (req, t) ∈ sent new -> 10 * second <= t) /\
    (false = false ->
     forall req reply rest,
       outbound plainEnv "GET" "/items/1" "application/json" None = inr req ->
       [answered okResponse] = reply :: rest ->
       exists tail,
         new = EvLock (bucketKey "/items/1") (Z.max (10 * second) 0)
               :: EvDo req (Z.max (10 * second) 0) :: tail).
Proof.
  apply (C9_exhausted_bucket_waits_for_reset plainEnv [answered okResponse] "GET"
           "/items/1" None None exhaustedWorld
           {| ratelimit.key := "/items/1"; ratelimit.limit := 5;
              ratelimit.remaining := 0; ratelimit.resetAt := 10 * second;
              ratelimit.locked := false |});
    [reflexivity | reflexivity | reflexivity].
Defined.

(** The run of the witness in full: locked at 10 s, sent at 10 s, released
    with the headers of the response. *)
Example exhausted_bucket_run :
  Request plainEnv [answered okResponse] "GET" "/items/1" None None exhaustedWorld
  = (Returned (Some okResponse) None,
     {| limiter := exhaustedLimiter;
        now := 10 * second;
        trace := [EvLock "/items/1" (10 * second);
                  EvDo getItem (10 * second);
                  EvRelease "/items/1" (Some ∅)] |}).
Proof. reflexivity. Qed.

(** How a bucket gets there: a release with headers that report the quota
    as used up until 10 s turns the unseen bucket into the exhausted one. *)
Example quota_from_headers :
  ratelimit.release "/items/1" (Some quotaHeaders) freshLimiter (1 * second)
  = (exhaustedLimiter, None) /\
  ratelimit.grantedAt "/items/1" exhaustedLimiter (2 * second) = Some (10 * second) /\
  ratelimit.grantedAt "/items/1" freshLimiter (2 * second) = Some (2 * second).
Proof. repeat split; reflexivity. Qed.

(** * Further properties of the dispatcher *)

(** ** The shape of the bucket key *)

Lemma Cut_splits (s before after : string) (sep : ascii) :
  gostrings.Cut s sep = Some (before, after) ->
  s = before +:+ String sep after /\ gostrings.Contains before sep = false.
Proof.
  revert before after. induction s as [|c rest IH]; simpl; intros before after H.
  - discriminate.
  - destruct (Ascii.eqb c sep) eqn:Hc.
    + apply Ascii.eqb_eq in Hc. subst c. injection H as <- <-. auto.
    + destruct (gostrings.Cut rest sep) as [[b' a']|] eqn:Hcut; [|discriminate].
      injection H as <- <-. destruct (IH b' a' eq_refl) as [-> Hclean].
      simpl. rewrite Hc, Hclean. auto.
Qed.

Lemma Cut_none (s : string) (sep : ascii) :
  gostrings.Cut s sep = None -> gostrings.Contains s sep = false.
Proof.
  induction s as [|c rest IH]; simpl; [reflexivity|].
  destruct (Ascii.eqb c sep); [discriminate|].
  destruct (gostrings.Cut rest sep) as [[b' a']|]; [discriminate|].
  intros _. simpl. apply IH. reflexivity.
Qed.

(** X1: The key of a route is the route up to its first question mark: it is a
    prefix of the route, it has no question mark in it, what follows it in
    the route is nothing or starts with the question mark, and taking the
    key of a key changes nothing. *)
Theorem bucketKey_is_clean_prefix (route : string) :
  gostrings.Contains (bucketKey route) "?"%char = false /\
  (route = bucketKey route \/
   exists query, route = bucketKey route +:+ String "?"%char query) /\
  bucketKey (bucketKey route) = bucketKey route.
Proof.
  assert (H : gostrings.Contains (withoutQuery route) "?"%char = false /\
              (route = withoutQuery route \/
               exists query, route = withoutQuery route +:+ String "?"%char query)).
  { unfold withoutQuery. simpl.
    destruct (gostrings.Cut route "?"%char) as [[before after]|] eqn:Hcut.
    - apply Cut_splits in Hcut as [-> Hclean]. simpl. eauto.
    - apply Cut_none in Hcut. simpl. auto. }
  rewrite !bucketKey_withoutQuery. destruct H as [Hclean Hprefix].
  repeat split; [exact Hclean | exact Hprefix |].
  apply withoutQuery_plain. exact Hclean.
Qed.

(** ** Locks, releases, transport calls and sleeps of one call *)

Lemma protocol_app (held : bool) (a b : list Event) :
  protocol held (a ++ b) =
  match protocol held a with
  | Some held' => protocol held' b
  | None => None
  end.
Proof.
  revert held. induction a as [|ev a IH]; intros held; simpl; [reflexivity|].
  destruct ev, held; simpl; auto.
Qed.

Section Accounting.

Context {RL : Type} {L : Limiter RL} (env : Env).

(** What every call of [requestWithLockedBucket] keeps, by induction on the
    replies: it enters holding the bucket. *)
Lemma attempt_accounting replies method route contentType b bucket sequence reason :
  forall w : World RL,
  exists new,
    trace (snd (requestWithLockedBucket env replies method route contentType b
                  bucket sequence reason w)) = trace w ++ new /\
    protocol true new
    = Some (heldAfter (fst (requestWithLockedBucket env replies method route
                              contentType b bucket sequence reason w))) /\
    (length (sent new) <= length replies)%nat /\
    length (sent new)
    = (length (slept new)
       + lastSend (outbound env method route contentType b)
           (fst (requestWithLockedBucket env replies method route contentType b
                   bucket sequence reason w)))%nat /\
    forall resp' err',
      fst (requestWithLockedBucket env replies method route contentType b
             bucket sequence reason w) = Returned resp' err' ->
      (resp' = None \/ err' = None) /\
      (slept new = [] -> resp' = None -> err' <> None).
Proof.
  assert (Hsettle : forall (tr0 tr : list Event) new out built,
            tr = tr0 ++ new ->
            protocol true new = Some (heldAfter out) ->
            (length (sent new) <= 1)%nat ->
            length (sent new) = (length (slept new) + lastSend built out)%nat ->
            (forall resp' err', out = Returned resp' err' ->
               (resp' = None /\ err' <> None) \/ (resp' <> None /\ err' = None)) ->
            forall n, exists new0,
              tr = tr0 ++ new0 /\
              protocol true new0 = Some (heldAfter out) /\
              (length (sent new0) <= S n)%nat /\
              length (sent new0) = (length (slept new0) + lastSend built out)%nat /\
              forall resp' err', out = Returned resp' err' ->
                (resp' = None \/ err' = None) /\
                (slept new0 = [] -> resp' = None -> err' <> None)).
  { intros tr0 tr new out built Htr Hp Hl Hc Hr n. exists new.
    repeat (split; [first [assumption | lia]|]).
    intros r' e' Heq. destruct (Hr r' e' Heq) as [[-> Hne]|[Hne ->]]; split; auto. }
  induction replies as [|reply rest IH]; intros w;
    destruct (outbound env method route contentType b) as [e|req] eqn:Hout.
  - rewrite (attempt_without_request env [] method route contentType b bucket
               sequence reason w e Hout). simpl.
    destruct (callRelease_trace bucket None w) as [_ Ht].
    exists [EvRelease bucket None]. rewrite Ht. simpl.
    repeat (split; [first [reflexivity | lia]|]).
    intros r' e' [= <- <-]. split; [auto|discriminate].
  - rewrite (no_reply_yet env method route contentType b bucket sequence reason w req Hout).
    simpl. exists []. rewrite app_nil_r. simpl.
    repeat (split; [first [reflexivity | lia]|]). discriminate.
  - rewrite (attempt_without_request env (reply :: rest) method route contentType b
               bucket sequence reason w e Hout). simpl.
    destruct (callRelease_trace bucket None w) as [_ Ht].
    exists [EvRelease bucket None]. rewrite Ht. simpl.
    repeat (split; [first [reflexivity | lia]|]).
    intros r' e' [= <- <-]. split; [auto|discriminate].
  - rewrite (attempt_reaches_transport env reply rest method route contentType b bucket
               sequence reason w req Hout). cbv zeta.
    set (w1 := httpClient_Do req reply w).
    assert (Hw1 : trace w1 = trace w ++ [EvDo req (now w)]) by reflexivity.
    clearbody w1.
    destruct (resp reply) as [r|].
    2:{ apply (Hsettle (trace w) _ [EvDo req (now w)]); simpl; auto. discriminate. }
    destruct (err reply) as [e|].
    { destruct (callRelease_trace bucket None w1) as [_ Ht].
      apply (Hsettle (trace w) _ [EvDo req (now w); EvRelease bucket None]); simpl; auto.
      - rewrite Ht, Hw1, <- app_assoc. reflexivity.
      - intros r' e' [= <- <-]. left. split; [auto|discriminate]. }
    pose proof (callRelease_trace bucket (Some (http.RespHeader r)) w1) as [_ Ht2].
    destruct (callRelease bucket (Some (http.RespHeader r)) w1) as [w2 rerr].
    simpl in Ht2.
    assert (Hw2 : trace w2 = trace w ++ [EvDo req (now w);
                                         EvRelease bucket (Some (http.RespHeader r))]).
    { rewrite Ht2, Hw1, <- app_assoc. reflexivity. }
    clear Ht2 Hw1.
    destruct rerr as [e|].
    { apply (Hsettle (trace w) _ _ _ _ Hw2); simpl; auto.
      intros r' e' [= <- <-]. left. split; [auto|discriminate]. }
    destruct (Z.eqb _ _).
    2:{ apply (Hsettle (trace w) _ _ _ _ Hw2); simpl; auto.
        intros r' e' [= <- <-]. right. split; [discriminate|auto]. }
    destruct (json.Decode _) as [e|rlr].
    { apply (Hsettle (trace w) _ _ _ _ Hw2); simpl; auto.
      intros r' e' [= <- <-]. left. split; [auto|discriminate]. }
    set (w3 := time_Sleep (RetryAfter rlr) w2).
    assert (Hw3 : trace w3 = trace w ++ [EvDo req (now w);
                                         EvRelease bucket (Some (http.RespHeader r));
                                         EvSleep (RetryAfter rlr)]).
    { unfold w3. simpl. rewrite Hw2, <- app_assoc. reflexivity. }
    clearbody w3.
    destruct (callLockObject bucket w3) as [w4|] eqn:Hlock.
    2:{ apply (Hsettle (trace w) _ _ _ _ Hw3); simpl; auto. discriminate. }
    apply callLockObject_trace in Hlock as [_ Ht4].
    destruct (IH w4) as (new' & Hnew' & Hproto & Hlen & Hcount & Hret).
    destruct (requestWithLockedBucket env rest method route contentType b bucket
                sequence reason w4) as [out5 w5].
    simpl in Hnew', Hproto, Hlen, Hcount, Hret.
    exists ([EvDo req (now w); EvRelease bucket (Some (http.RespHeader r));
             EvSleep (RetryAfter rlr); EvLock bucket (now w4)] ++ new').
    assert (Htrace : trace w5 = trace w ++
              [EvDo req (now w); EvRelease bucket (Some (http.RespHeader r));
               EvSleep (RetryAfter rlr); EvLock bucket (now w4)] ++ new').
    { rewrite Hnew', Ht4, Hw3, <- !app_assoc. reflexivity. }
    destruct out5; simpl in *; (split; [exact Htrace|]);
      (split; [exact Hproto|]); (split; [lia|]); (split; [lia|]);
      intros r' e' Heq; try discriminate.
    injection Heq as <- <-. split; [auto|discriminate].
Qed.


(** X3: one transport call per reply used, one sleep per retry. A call of
    [Request] makes no more transport calls than there are replies, and
    never sleeps more often than it calls the transport. When it returns
    and its request could be built, it has made exactly one transport call
    more than it has slept; when the request could not be built it has
    made none. *)
Theorem Request_sends_once_more_than_it_sleeps replies method route data reason
    (w : World RL) :
  exists new,
    trace (snd (Request env replies method route data reason w)) = trace w ++ new /\
    (length (slept new) <= length (sent new) <= length replies)%nat /\
    forall resp' err',
      fst (Request env replies method route data reason w) = Returned resp' err' ->
      length (sent new)
      = if outbound env method route "application/json" data is inr _
        then S (length (slept new)) else 0%nat.
Proof.
  rewrite Request_unfold.
  destruct (callLock (bucketKey route) w) as [w1|] eqn:Hlock.
  2:{ exists []. simpl. rewrite app_nil_r. split; [reflexivity|]. split; [lia|]. discriminate. }
  apply callLock_trace in Hlock as [_ Ht1].
  destruct (attempt_accounting replies method route "application/json" data
              (bucketKey route) 0 reason w1) as (new & Hnew & _ & Hlen & Hcount & _).
  exists ([EvLock (bucketKey route) (now w1)] ++ new).
  rewrite Hnew, Ht1, <- app_assoc. split; [reflexivity|].
  simpl. split; [lia|].
  intros r' e' Heq. rewrite Heq in Hcount. simpl in Hcount.
  destruct (attempt_events env replies method route "application/json" data
              (bucketKey route) 0 reason w1) as (new2 & Hnew2 & _ & Hall).
  rewrite Hnew in Hnew2. apply app_inv_head in Hnew2. subst new2.
  destruct (outbound env method route "application/json" data) as [e|req];
    simpl in *; [|lia].
  destruct (sent new) as [|[req t] others] eqn:Hsent; [reflexivity|].
  assert (Hin : (req, t) ∈ sent new) by (rewrite Hsent; left).
  destruct (sent_emitted _ _ _ _ _ _ Hall Hin) as [Hbuilt _]. discriminate.
Qed.

(** X4: a response and an error never come back together. When [Request]
    returns, the response is nil or the error is nil; and if the call did
    not sleep (no rejection was retried), one of the two is not nil. Both
    can be nil only after a retry. *)
Theorem Request_never_returns_response_with_error replies method route data reason
    (w : World RL) :
  exists new,
    trace (snd (Request env replies method route data reason w)) = trace w ++ new /\
    forall resp' err',
      fst (Request env replies method route data reason w) = Returned resp' err' ->
      (resp' = None \/ err' = None) /\
      (slept new = [] -> resp' = None -> err' <> None).
Proof.
  rewrite Request_unfold.
  destruct (callLock (bucketKey route) w) as [w1|] eqn:Hlock.
  2:{ exists []. simpl. rewrite app_nil_r. split; [reflexivity|]. discriminate. }
  apply callLock_trace in Hlock as [_ Ht1].
  destruct (attempt_accounting replies method route "application/json" data
              (bucketKey route) 0 reason w1) as (new & Hnew & _ & _ & _ & Hret).
  exists ([EvLock (bucketKey route) (now w1)] ++ new).
  rewrite Hnew, Ht1, <- app_assoc. split; [reflexivity|].
  intros r' e' Heq. simpl. apply Hret. exact Heq.
Qed.

(** X5: a retry sends the same request again. All transport calls of one
    call of [Request] carry one and the same request, the one [outbound]
    builds from method, route and body: same method, URL, headers and
    body on the first attempt and on every retry. *)
Theorem Request_resends_the_same_request replies method route data reason
    (w : World RL) :
  exists new,
    trace (snd (Request env replies method route data reason w)) = trace w ++ new /\
    forall req t, (req, t) ∈ sent new ->
      outbound env method route "application/json" data = inr req /\
      http.URL req = route /\
      http.Method req = (if String.eqb method EmptyString then "GET" else method) /\
      http.ReqBody req = match data with
                         | Some (Marshals text) => text
                         | _ => EmptyString
                         end.
Proof.
  rewrite Request_unfold.
  destruct (callLock (bucketKey route) w) as [w1|] eqn:Hlock.
  2:{ exists []. simpl. rewrite app_nil_r. split; [reflexivity|].
      intros req t Hin. inversion Hin. }
  apply callLock_trace in Hlock as [_ Ht1].
  destruct (attempt_events env replies method route "application/json" data
              (bucketKey route) 0 reason w1) as (new & Hnew & _ & Hall).
  exists ([EvLock (bucketKey route) (now w1)] ++ new).
  rewrite Hnew, Ht1, <- app_assoc. split; [reflexivity|].
  intros req t Hin. simpl in Hin.
  destruct (sent_emitted _ _ _ _ _ _ Hall Hin) as [Hout _].
  split; [exact Hout|].
  unfold outbound, encodeBody, http_NewRequest in Hout.
  destruct data as [[text|e]|]; simpl in Hout; try discriminate;
    destruct (requestError env method route); try discriminate;
    injection Hout as <-; auto.
Qed.

End Accounting.

(** ** Errors on the way to and from the transport *)

Section ErrorPaths.

Context {RL : Type} {L : Limiter RL} (env : Env).

Lemma callRelease_result bucket headers (w : World RL) :
  callRelease bucket headers w =
  ({| limiter := fst (release bucket headers (limiter w) (now w));
      now := now w;
      trace := trace w ++ [EvRelease bucket headers] |},
   snd (release bucket headers (limiter w) (now w))).
Proof.
  unfold callRelease. destruct (release _ _ _ _) as [rl e]. reflexivity.
Qed.

(** X6: a request that cannot be built. When the body is nil or can be
    encoded and [http.NewRequest] refuses the method or the URL, [Request],
    once its lock is granted, releases the bucket with nil headers and
    returns the error of [http.NewRequest] with a nil response; the
    transport is not called, whatever replies it holds. *)
Theorem Request_refused_by_NewRequest replies method route data reason (w : World RL)
    buffer e rl wait :
  encodeBody data = inr buffer ->
  requestError env method route = Some e ->
  lockBucket (bucketKey route) (limiter w) (now w) = Some (rl, wait) ->
  fst (Request env replies method route data reason w) = Returned None (Some e) /\
  trace (snd (Request env replies method route data reason w))
  = trace w ++ [EvLock (bucketKey route) (now w + Z.max 0 wait);
                EvRelease (bucketKey route) None].
Proof.
  intros Henc Hreq Hlock. rewrite Request_unfold. unfold callLock. rewrite Hlock.
  assert (Hout : outbound env method route "application/json" data = inl e).
  { unfold outbound, http_NewRequest. rewrite Henc, Hreq. reflexivity. }
  rewrite (attempt_without_request env replies method route "application/json" data
             (bucketKey route) 0 reason _ e Hout).
  rewrite callRelease_result. simpl. rewrite <- app_assoc. auto.
Qed.

(** X7: a transport error beside a response. When [httpClient.Do] returns
    an error together with a response, the attempt releases the bucket with
    nil headers, so the quota headers of that response are not used, and
    returns a nil response with the error. It does so whatever the status
    of the response: a 429 is not waited out and not retried. *)
Theorem transport_error_discards_response reply rest method route contentType b bucket
    sequence reason (w : World RL) req r e :
  outbound env method route contentType b = inr req ->
  resp reply = Some r ->
  err reply = Some e ->
  fst (requestWithLockedBucket env (reply :: rest) method route contentType b bucket
         sequence reason w) = Returned None (Some e) /\
  trace (snd (requestWithLockedBucket env (reply :: rest) method route contentType b
                bucket sequence reason w))
  = trace w ++ [EvDo req (now w); EvRelease bucket None].
Proof.
  intros Hout Hresp Herr.
  rewrite (attempt_reaches_transport env reply rest method route contentType b bucket
             sequence reason w req Hout). cbv zeta.
  rewrite Hresp, Herr, callRelease_result. simpl. rewrite <- app_assoc. auto.
Qed.

(** X8: an error of the release. When [bucket.release] reports an error for
    the headers of a response, the attempt returns a nil response with
    that error: the response is lost to the caller whatever its status,
    and a 429 is not waited out and not retried. *)
Theorem release_error_discards_response reply rest method route contentType b bucket
    sequence reason (w w2 : World RL) req r e :
  outbound env method route contentType b = inr req ->
  resp reply = Some r ->
  err reply = None ->
  received req bucket reply r w = (w2, Some e) ->
  requestWithLockedBucket env (reply :: rest) method route contentType b bucket
    sequence reason w = (Returned None (Some e), w2) /\
  trace w2 = trace w ++ [EvDo req (now w); EvRelease bucket (Some (http.RespHeader r))].
Proof.
  intros Hout Hresp Herr Hrecv.
  rewrite (attempt_reaches_transport env reply rest method route contentType b bucket
             sequence reason w req Hout). cbv zeta.
  rewrite Hresp, Herr. unfold received in Hrecv. rewrite Hrecv.
  split; [reflexivity|].
  rewrite callRelease_result in Hrecv. injection Hrecv as <- _.
  simpl. rewrite <- app_assoc. reflexivity.
Qed.

(** X9: no retry before the wait is over. After a rejection that the
    dispatcher acts on, every later transport call of the same call happens
    no earlier than the arrival of the rejection plus its [RetryAfter]. *)
Theorem retry_not_before_RetryAfter reply rest method route contentType b bucket
    sequence reason (w w2 : World RL) req r rlr :
  outbound env method route contentType b = inr req ->
  resp reply = Some r ->
  err reply = None ->
  received req bucket reply r w = (w2, None) ->
  http.StatusCode r = http.StatusTooManyRequests ->
  json.Decode (http.RespBody r) = inr rlr ->
  exists tail,
    trace (snd (requestWithLockedBucket env (reply :: rest) method route contentType b
                  bucket sequence reason w))
    = trace w ++ EvDo req (now w) :: tail /\
    forall req' t, (req', t) ∈ sent tail ->
      now w + Z.max 0 (elapsed reply) + Z.max 0 (RetryAfter rlr) <= t.
Proof.
  intros Hout Hresp Herr Hrecv Hcode Hdec.
  rewrite (attempt_reaches_transport env reply rest method route contentType b bucket
             sequence reason w req Hout). cbv zeta.
  rewrite Hresp, Herr. unfold received in Hrecv. rewrite Hrecv.
  rewrite Hcode, Z.eqb_refl, Hdec.
  rewrite callRelease_result in Hrecv. injection Hrecv as <- _.
  set (w2 := {| limiter := _; now := _; trace := _ |}).
  set (w3 := time_Sleep (RetryAfter rlr) w2).
  assert (Hn3 : now w3 = now w + Z.max 0 (elapsed reply) + Z.max 0 (RetryAfter rlr))
    by reflexivity.
  assert (Ht3 : trace w3 = trace w ++ EvDo req (now w)
                  :: [EvRelease bucket (Some (http.RespHeader r));
                      EvSleep (RetryAfter rlr)]).
  { unfold w3, w2. simpl. rewrite <- !app_assoc. reflexivity. }
  clearbody w3. clear w2.
  destruct (callLockObject bucket w3) as [w4|] eqn:Hlock.
  2:{ eexists. split; [exact Ht3|]. simpl. intros req' t Hin. inversion Hin. }
  apply callLockObject_trace in Hlock as [Hn4 Ht4].
  destruct (attempt_events env rest method route contentType b bucket sequence reason w4)
    as (new & Hnew & _ & Hall).
  exists ([EvRelease bucket (Some (http.RespHeader r)); EvSleep (RetryAfter rlr);
           EvLock bucket (now w4)] ++ new).
  split.
  - destruct (requestWithLockedBucket env rest method route contentType b bucket
                sequence reason w4) as [[] w5]; simpl in *;
      rewrite Hnew, Ht4, Ht3, <- !app_assoc; reflexivity.
  - intros req' t Hin. simpl in Hin.
    destruct (sent_emitted _ _ _ _ _ _ Hall Hin) as [_ Hle]. lia.
Qed.

(** X10: rejections are waited out one by one. When the transport answers
    with any number of rejections and then with a response of another
    status, the release accepts the headers of all of these and the bucket
    can be locked again after each release, the call returns that last
    response with a nil error, having slept once for each rejection, for
    its [RetryAfter] and in the order of arrival, and having called the
    transport once more than it slept. The replies after that are not
    used. *)
Theorem rejections_are_waited_out rejections final rest method route contentType b
    bucket sequence reason req r :
  outbound env method route contentType b = inr req ->
  Forall isRejection rejections ->
  resp final = Some r ->
  err final = None ->
  http.StatusCode r <> http.StatusTooManyRequests ->
  (forall reply r', reply ∈ rejections ++ [final] -> resp reply = Some r' ->
     forall rl t, snd (release bucket (Some (http.RespHeader r')) rl t) = None) ->
  (forall h rl t t', is_Some (lockBucketObject bucket (fst (release bucket h rl t)) t')) ->
  forall w : World RL,
  exists new,
    fst (requestWithLockedBucket env (rejections ++ final :: rest) method route
           contentType b bucket sequence reason w) = Returned (Some r) None /\
    trace (snd (requestWithLockedBucket env (rejections ++ final :: rest) method route
                  contentType b bucket sequence reason w)) = trace w ++ new /\
    slept new = map retryAfterOf rejections /\
    length (sent new) = S (length rejections).
Proof.
  intros Hout Hrej Hresp Herr Hcode Hrel Hgrant.
  induction Hrej as [|rej rejs Hrej1 Hrejs IH]; intros w.
  - simpl app.
    rewrite (attempt_reaches_transport env final rest method route contentType b bucket
               sequence reason w req Hout). cbv zeta.
    rewrite Hresp, Herr, callRelease_result.
    rewrite (Hrel final r) by (try apply list_elem_of_here; auto; left).
    apply Z.eqb_neq in Hcode. rewrite Hcode.
    exists [EvDo req (now w); EvRelease bucket (Some (http.RespHeader r))].
    simpl. rewrite <- app_assoc. auto.
  - destruct Hrej1 as (r0 & rlr0 & Hresp0 & Herr0 & Hcode0 & Hdec0).
    simpl app.
    rewrite (attempt_reaches_transport env rej (rejs ++ final :: rest) method route
               contentType b bucket sequence reason w req Hout). cbv zeta.
    rewrite Hresp0, Herr0, callRelease_result.
    rewrite (Hrel rej r0) by (auto; left).
    rewrite Hcode0, Z.eqb_refl, Hdec0.
    set (w3 := time_Sleep (RetryAfter rlr0) _).
    assert (Ht3 : trace w3 = trace w ++ [EvDo req (now w);
                                         EvRelease bucket (Some (http.RespHeader r0));
                                         EvSleep (RetryAfter rlr0)]).
    { unfold w3. simpl. rewrite <- !app_assoc. reflexivity. }
    assert (Hgranted : is_Some (callLockObject bucket w3)).
    { unfold callLockObject.
      destruct (Hgrant (Some (http.RespHeader r0)) (limiter w)
                  (now w + Z.max 0 (elapsed rej)) (now w3)) as [[rl wait] Hl].
      unfold w3 at 1. simpl limiter. rewrite Hl. eauto. }
    clearbody w3. destruct Hgranted as [w4 Hlock]. rewrite Hlock.
    apply callLockObject_trace in Hlock as [_ Ht4].
    destruct (IH (fun reply r' Hin => Hrel reply r' (list_elem_of_further _ _ _ Hin)) w4)
      as (new & Hout' & Hnew & Hslept & Hsent).
    destruct (requestWithLockedBucket env (rejs ++ final :: rest) method route
                contentType b bucket sequence reason w4) as [out5 w5].
    simpl in Hout', Hnew. subst out5.
    exists ([EvDo req (now w); EvRelease bucket (Some (http.RespHeader r0));
             EvSleep (RetryAfter rlr0); EvLock bucket (now w4)] ++ new).
    simpl. rewrite Hnew, Ht4, Ht3, <- !app_assoc. simpl.
    rewrite Hslept, Hsent. unfold retryAfterOf at 2. rewrite Hresp0, Hdec0.
    auto.
Qed.

End ErrorPaths.

Lemma Request_refused_witness :
  fst (Request strictEnv [answered okResponse] "GE T" "/items/1" None None (startWorld 0))
  = Returned None (Some "net/http: invalid method") /\
  trace (snd (Request strictEnv [answered okResponse] "GE T" "/items/1" None None
                (startWorld 0)))
  = trace (startWorld 0) ++ [EvLock (bucketKey "/items/1") (0 + Z.max 0 0);
                             EvRelease (bucketKey "/items/1") None].
Proof.
  apply (Request_refused_by_NewRequest strictEnv [answered okResponse] "GE T" "/items/1"
           None None (startWorld 0) EmptyString "net/http: invalid method"
           (limiter lockedWorld) 0);
    reflexivity.
Defined.

Lemma transport_error_witness :
  fst (requestWithLockedBucket plainEnv [timedOut; answered okResponse] "GET" "/items/1"
         "application/json" None "/items/1" 0 None lockedWorld)
  = Returned None (Some "context deadline exceeded") /\
  trace (snd (requestWithLockedBucket plainEnv [timedOut; answered okResponse] "GET"
                "/items/1" "application/json" None "/items/1" 0 None lockedWorld))
  = trace lockedWorld ++ [EvDo getItem (now lockedWorld); EvRelease "/items/1" None].
Proof.
  apply (transport_error_discards_response plainEnv timedOut [answered okResponse] "GET"
           "/items/1" "application/json" None "/items/1" 0 None lockedWorld getItem
           (rejection (3 * second) false) "context deadline exceeded");
    reflexivity.
Defined.

Lemma release_error_witness :
  requestWithLockedBucket plainEnv [answered badQuota] "GET" "/items/1"
    "application/json" None "/items/1" 0 None lockedWorld
  = (Returned None (Some "invalid X-RateLimit-Remaining"),
     fst (received getItem "/items/1" (answered badQuota) badQuota lockedWorld)) /\
  trace (fst (received getItem "/items/1" (answered badQuota) badQuota lockedWorld))
  = trace lockedWorld ++ [EvDo getItem (now lockedWorld);
                          EvRelease "/items/1" (Some (http.RespHeader badQuota))].
Proof.
  apply (release_error_discards_response plainEnv (answered badQuota) [] "GET"
           "/items/1" "application/json" None "/items/1" 0 None lockedWorld _ getItem
           badQuota "invalid X-RateLimit-Remaining");
    reflexivity.
Defined.

Lemma retry_not_before_witness :
  exists tail,
    trace (snd (requestWithLockedBucket plainEnv
                  [answered (rejection (3 * second) false); answered okResponse]
                  "GET" "/items/1" "application/json" None "/items/1" 0 None lockedWorld))
    = trace lockedWorld ++ EvDo getItem (now lockedWorld) :: tail /\
    forall req' t, (req', t) ∈ sent tail ->
      now lockedWorld + Z.max 0 (elapsed (answered (rejection (3 * second) false)))
      + Z.max 0 (3 * second) <= t.
Proof.
  apply (retry_not_before_RetryAfter plainEnv (answered (rejection (3 * second) false))
           [answered okResponse] "GET" "/items/1" "application/json" None "/items/1"
           0 None lockedWorld
           (fst (received getItem "/items/1" (answered (rejection (3 * second) false))
                   (rejection (3 * second) false) lockedWorld))
           getItem (rejection (3 * second) false)
           {| RetryAfter := 3 * second; Global := false;
              Message := "You are being rate limited." |});
    reflexivity.
Defined.

(** The limiter of the specification takes headers without quota fields
    and grants a bucket again once it has been released. *)
Lemma spec_release_accepts_plain_headers k rl t :
  snd (ratelimit.release k (Some ∅) rl t) = None.
Proof. reflexivity. Qed.

Lemma spec_relock_after_release k h rl t t' :
  is_Some (ratelimit.acquire k (fst (ratelimit.release k h rl t)) t').
Proof.
  destruct (release_unlocks k h rl t) as (lim & rem & rst & ->).
  unfold ratelimit.acquire, ratelimit.resolve. simpl.
  rewrite lookup_insert_eq. simpl. eauto.
Qed.

Lemma rejections_waited_out_witness :
  exists new,
    fst (requestWithLockedBucket plainEnv
           ([answered (rejection (3 * second) false); answered (rejection (1 * second) true)]
            ++ answered notFound :: [answered okResponse])
           "GET" "/items/1" "application/json" None "/items/1" 0 None lockedWorld)
    = Returned (Some notFound) None /\
    trace (snd (requestWithLockedBucket plainEnv
           ([answered (rejection (3 * second) false); answered (rejection (1 * second) true)]
            ++ answered notFound :: [answered okResponse])
           "GET" "/items/1" "application/json" None "/items/1" 0 None lockedWorld))
    = trace lockedWorld ++ new /\
    slept new = map retryAfterOf
                  [answered (rejection (3 * second) false);
                   answered (rejection (1 * second) true)] /\
    length (sent new) = 3%nat.
Proof.
  apply (rejections_are_waited_out plainEnv
           [answered (rejection (3 * second) false); answered (rejection (1 * second) true)]
           (answered notFound) [answered okResponse] "GET" "/items/1" "application/json"
           None "/items/1" 0 None getItem notFound).
  - reflexivity.
  - repeat constructor; eexists _, _; repeat split; reflexivity.
  - reflexivity.
  - reflexivity.
  - discriminate.
  - intros reply r' Hin Hresp rl t.
    assert (Hplain : http.RespHeader r' = ∅).
    { repeat (apply elem_of_cons in Hin as [->|Hin];
              [injection Hresp as <-; reflexivity|]).
      inversion Hin. }
    rewrite Hplain. apply spec_release_accepts_plain_headers.
  - intros h rl t t'. apply spec_relock_after_release.
Defined.

(** * Properties of the endpoints *)

(** ** [BuildResponse] *)

Lemma fold_appendEmbed {Embed AllowedMentions Component Attachment : Type}
    (embeds : list Embed)
    (d : @InteractionCallbackDataMessages Embed AllowedMentions Component Attachment) :
  fold_left appendEmbed embeds d =
  {| TTS := TTS d; Content := Content d; Embeds := Embeds d ++ embeds;
     Mentions := Mentions d; Flags := Flags d; Components := Components d;
     Attachments := Attachments d |}.
Proof.
  revert d. induction embeds as [|embed embeds IH]; intros d; simpl.
  - rewrite app_nil_r. destruct d; reflexivity.
  - rewrite IH. simpl. rewrite <- app_assoc. reflexivity.
Qed.

(** X11: what [BuildResponse] builds. The response carries exactly the
    embeds it was given, in their order, and nothing else: no content, no
    components, no attachments, no flags. Its type is
    [ChannelMessageWithSource] (4) for an application command and
    [UpdateMessage] (7) for every other type of interaction, a ping, an
    autocomplete and a modal submit included. *)
Theorem BuildResponse_keeps_embeds_and_picks_type
    {Embed AllowedMentions Component Attachment : Type}
    (interactionType : Z) (embeds : list Embed) :
  @BuildResponse Embed AllowedMentions Component Attachment interactionType embeds =
  {| ResponseType := if Z.eqb interactionType 2 then 4 else 7;
     Data := Some {| TTS := false; Content := EmptyString; Embeds := embeds;
                     Mentions := None; Flags := 0; Components := [];
                     Attachments := [] |} |}.
Proof.
  unfold BuildResponse. rewrite fold_appendEmbed. reflexivity.
Qed.

(** ** The name of a webhook *)

Lemma HasPrefix_app (sub post : string) : gostrings.HasPrefix (sub +:+ post) sub = true.
Proof.
  induction sub as [|c sub IH]; simpl; [reflexivity|].
  rewrite Ascii.eqb_refl, IH. reflexivity.
Qed.

Lemma HasPrefix_split (s sub : string) :
  gostrings.HasPrefix s sub = true -> exists post, s = sub +:+ post.
Proof.
  revert s. induction sub as [|c sub IH]; intros s; simpl.
  - intros _. exists s. reflexivity.
  - destruct s as [|d s]; [discriminate|].
    intros H. apply andb_true_iff in H as [Hc Hrest].
    apply Ascii.eqb_eq in Hc. subst d.
    destruct (IH s Hrest) as [post ->]. exists post. reflexivity.
Qed.

Lemma ContainsString_iff (s sub : string) :
  gostrings.ContainsString s sub = true <-> exists pre post, s = pre +:+ sub +:+ post.
Proof.
  split.
  - induction s as [|c s IH]; simpl.
    + rewrite orb_false_r. intros H. apply HasPrefix_split in H as [post ->].
      exists EmptyString, post. reflexivity.
    + intros H. apply orb_true_iff in H as [H|H].
      * apply HasPrefix_split in H as [post ->]. exists EmptyString, post. reflexivity.
      * destruct (IH H) as (pre & post & ->). exists (String c pre), post. reflexivity.
  - intros (pre & post & ->). induction pre as [|c pre IH].
    + simpl. destruct (sub +:+ post) eqn:E; simpl; rewrite <- ?E, HasPrefix_app; reflexivity.
    + simpl. rewrite IH. apply orb_true_r.
Qed.

Lemma lowerBytes_app (a b : string) :
  gostrings.lowerBytes (a +:+ b) = gostrings.lowerBytes a +:+ gostrings.lowerBytes b.
Proof.
  induction a as [|c a IH]; simpl; [reflexivity|]. rewrite IH. reflexivity.
Qed.

Lemma lowerBytes_split (s a b : string) :
  gostrings.lowerBytes s = a +:+ b ->
  exists s1 s2, s = s1 +:+ s2 /\ gostrings.lowerBytes s1 = a /\ gostrings.lowerBytes s2 = b.
Proof.
  revert s. induction a as [|c a IH]; intros s H.
  - exists EmptyString, s. auto.
  - destruct s as [|d s]; [discriminate|]. simpl in H.
    injection H as Hc Hrest. destruct (IH s Hrest) as (s1 & s2 & -> & <- & <-).
    exists (String d s1), s2. simpl. rewrite Hc. auto.
Qed.

Lemma lowerBytes_without_upper (s : string) :
  gostrings.hasUpper s = false -> gostrings.lowerBytes s = s.
Proof.
  induction s as [|c s IH]; simpl; [reflexivity|].
  intros H. apply orb_false_iff in H as [Hc Hrest].
  rewrite Hc, (IH Hrest). reflexivity.
Qed.

Lemma ToLower_ascii (unicodeLower : string -> string) (s : string) :
  gostrings.isASCII s = true -> gostrings.ToLower unicodeLower s = gostrings.lowerBytes s.
Proof.
  intros H. unfold gostrings.ToLower. rewrite H.
  destruct (gostrings.hasUpper s) eqn:Hu; [reflexivity|].
  symmetry. apply lowerBytes_without_upper. exact Hu.
Qed.

(** For an ASCII name the test for "clyde" is a search for the five
    letters in any mix of cases. *)
Lemma clyde_in_any_case (unicodeLower : string -> string) (name : string) :
  gostrings.isASCII name = true ->
  gostrings.ContainsString (gostrings.ToLower unicodeLower name) "clyde" = true <->
  exists pre mid post,
    name = pre +:+ mid +:+ post /\ gostrings.lowerBytes mid = "clyde".
Proof.
  intros Hascii. rewrite (ToLower_ascii _ _ Hascii), ContainsString_iff. split.
  - intros (pre & post & H).
    apply lowerBytes_split in H as (s1 & s23 & -> & <- & H).
    apply lowerBytes_split in H as (s2 & s3 & -> & H2 & <-).
    exists s1, s2, s3. auto.
  - intros (pre & mid & post & -> & H).
    exists (gostrings.lowerBytes pre), (gostrings.lowerBytes post).
    rewrite !lowerBytes_app, H. reflexivity.
Qed.

Section WebhookFacts.

Context {W URL Avatar Webhook : Type}.
Variable unicodeLower : string -> string.
Variable avatarString : Avatar -> string.
Variable parseRoute : string -> URL.
Variable routeOf : string -> string.
Variable firePostRequest : URL -> WebhookParams -> option string -> W -> string * W.
Variable unmarshalWebhook : string -> option Webhook * option Error.

(** X12: names [CreateWebhook] refuses. For an ASCII name that is empty, or
    longer than 80 bytes, or has the letters of "clyde" in it in any mix of
    upper and lower case, [CreateWebhook] returns a nil webhook with its
    naming error and posts nothing: [firePostRequest] is not reached and
    the avatar is not read, so that even a nil avatar does no harm. *)
Theorem CreateWebhook_refuses_bad_names (c : Channel) (name : string)
    (avatar : option Avatar) (reason : option string) (w : W) :
  gostrings.isASCII name = true ->
  (String.length name = 0%nat \/ (80 < String.length name)%nat \/
   exists pre mid post,
     name = pre +:+ mid +:+ post /\ gostrings.lowerBytes mid = "clyde") ->
  CreateWebhook unicodeLower avatarString parseRoute routeOf firePostRequest
    unmarshalWebhook c name avatar reason w
  = (Ends (None, Some webhookNameError), w).
Proof.
  intros Hascii Hbad. unfold CreateWebhook.
  assert (Hrefused : nameRefused unicodeLower name = true).
  { unfold nameRefused. destruct Hbad as [H0|[H80|Hclyde]].
    - rewrite H0. reflexivity.
    - apply Nat.ltb_lt in H80. rewrite H80. apply orb_true_iff. left. apply orb_true_r.
    - apply (clyde_in_any_case unicodeLower name Hascii) in Hclyde.
      rewrite Hclyde. apply orb_true_r. }
  rewrite Hrefused. reflexivity.
Qed.

(** X13: names [CreateWebhook] takes. For an ASCII name of 1 to 80 bytes
    without the letters of "clyde" in any mix of cases, whatever else it
    is made of, [CreateWebhook] goes on to read the avatar. With a nil
    avatar it panics there, before anything is posted. With an avatar it
    posts once, to the route of the channel, the name as given and the
    avatar as text, with the reason it was given, and returns what
    [json.Unmarshal] makes of the bytes that come back. *)
Theorem CreateWebhook_posts_good_names (c : Channel) (name : string)
    (avatar : option Avatar) (reason : option string) (w : W) :
  gostrings.isASCII name = true ->
  (1 <= String.length name <= 80)%nat ->
  (forall pre mid post,
     name = pre +:+ mid +:+ post -> gostrings.lowerBytes mid <> "clyde") ->
  CreateWebhook unicodeLower avatarString parseRoute routeOf firePostRequest
    unmarshalWebhook c name avatar reason w
  = match avatar with
    | None => (Fails Panicked, w)
    | Some a =>
        (Ends (unmarshalWebhook
                 (fst (firePostRequest (parseRoute (routeOf (ChannelID c)))
                         {| ParamName := name; ParamAvatar := avatarString a |}
                         reason w))),
         snd (firePostRequest (parseRoute (routeOf (ChannelID c)))
                {| ParamName := name; ParamAvatar := avatarString a |} reason w))
    end.
Proof.
  intros Hascii [Hmin Hmax] Hclean. unfold CreateWebhook.
  assert (Hrefused : nameRefused unicodeLower name = false).
  { unfold nameRefused.
    apply Nat.ltb_ge in Hmin. apply Nat.ltb_ge in Hmax. rewrite Hmin, Hmax. simpl.
    destruct (gostrings.ContainsString _ "clyde") eqn:Hc; [|reflexivity].
    apply (clyde_in_any_case unicodeLower name Hascii) in Hc
      as (pre & mid & post & Hname & Hmid).
    destruct (Hclean pre mid post Hname Hmid). }
  rewrite Hrefused. destruct avatar as [a|]; [|reflexivity].
  destruct (firePostRequest _ _ _ _). reflexivity.
Qed.

End WebhookFacts.

Lemma CreateWebhook_refuses_witness :
  CreateWebhook (fun s => s) (fun avatar : string => avatar) (fun u => u) channelWebhooks
    recordingPost (fun _ => (Some "webhook", None)) someChannel "Captain CLyDe II"
    (Some "data:image/png;base64,AAAA") (Some "new hook") []
  = (Ends (None, Some webhookNameError), []).
Proof.
  apply (CreateWebhook_refuses_bad_names (fun s => s) (fun avatar : string => avatar)
           (fun u => u) channelWebhooks recordingPost (fun _ => (Some "webhook", None))
           someChannel "Captain CLyDe II" (Some "data:image/png;base64,AAAA")
           (Some "new hook") []).
  - reflexivity.
  - right. right. exists "Captain ", "CLyDe", " II". split; reflexivity.
Defined.

Lemma CreateWebhook_posts_witness :
  CreateWebhook (fun s => s) (fun avatar : string => avatar) (fun u => u) channelWebhooks
    recordingPost (fun _ => (Some "webhook", None)) someChannel "Build Bot"
    (Some "data:image/png;base64,AAAA") (Some "new hook") []
  = (Ends ((fun _ => (Some "webhook", None))
             (fst (recordingPost (channelWebhooks (ChannelID someChannel))
                     {| ParamName := "Build Bot";
                        ParamAvatar := "data:image/png;base64,AAAA" |}
                     (Some "new hook") []))),
     snd (recordingPost (channelWebhooks (ChannelID someChannel))
            {| ParamName := "Build Bot"; ParamAvatar := "data:image/png;base64,AAAA" |}
            (Some "new hook") [])).
Proof.
  apply (CreateWebhook_posts_good_names (fun s => s) (fun avatar : string => avatar)
           (fun u => u) channelWebhooks recordingPost (fun _ => (Some "webhook", None))
           someChannel "Build Bot" (Some "data:image/png;base64,AAAA")
           (Some "new hook") []).
  - reflexivity.
  - simpl. lia.
  - intros pre mid post Hname Hmid.
    assert (H : gostrings.ContainsString (gostrings.ToLower (fun s => s) "Build Bot") "clyde"
                = true).
    { apply clyde_in_any_case; [reflexivity|]. exists pre, mid, post. auto. }
    discriminate H.
Defined.

(** The bounds of the name, the one post of a name that is taken, and the
    panic of the same call without an avatar. *)
Example webhook_name_bounds :
  nameRefused (fun s => s) EmptyString = true /\
  nameRefused (fun s => s) "x" = false /\
  nameRefused (fun s => s)
    "01234567890123456789012345678901234567890123456789012345678901234567890123456789"
  = false /\
  nameRefused (fun s => s)
    "012345678901234567890123456789012345678901234567890123456789012345678901234567890"
  = true /\
  snd (CreateWebhook (fun s => s) (fun avatar : string => avatar) (fun u => u)
         channelWebhooks recordingPost (fun _ => (Some "webhook", None)) someChannel
         "Build Bot" (Some "data:image/png;base64,AAAA") (Some "new hook") [])
  = [("/channels/41771983423143937/webhooks",
      {| ParamName := "Build Bot"; ParamAvatar := "data:image/png;base64,AAAA" |},
      Some "new hook")] /\
  CreateWebhook (fun s => s) (fun avatar : string => avatar) (fun u => u)
    channelWebhooks recordingPost (fun _ => (Some "webhook", None)) someChannel
    "Build Bot" None (Some "new hook") []
  = (Fails Panicked, []).
Proof. repeat split; reflexivity. Qed.

(** ** The emoji endpoints *)

Section EmojiFacts.

Context {RL : Type} {L : Limiter RL} (env : Env).
Context {URL Emoji : Type}.
Variable url_Parse : string -> Error + URL.
Variable url_String : URL -> string.
Variable listRoute : string -> string.
Variable getRoute : string -> string -> string.
Variable createRoute : string -> string.
Variable modifyRoute : string -> string -> string.
Variable deleteRoute : string -> string -> string.
Variable emojiID : Emoji -> string.
Variable decodeEmojis : Body -> Error + list Emoji.
Variable decodeEmoji : Body -> Error + option Emoji.

(** Every request of a call of [Request] is the one [outbound] builds. *)
Lemma Request_sends_outbound replies method route data reason (w : World RL) :
  exists new,
    trace (snd (Request env replies method route data reason w)) = trace w ++ new /\
    forall req t, (req, t) ∈ sent new ->
      outbound env method route "application/json" data = inr req.
Proof.
  rewrite Request_unfold.
  destruct (callLock (bucketKey route) w) as [w1|] eqn:Hlock.
  2:{ exists []. simpl. rewrite app_nil_r. split; [reflexivity|].
      intros req t Hin. inversion Hin. }
  apply callLock_trace in Hlock as [_ Ht1].
  destruct (attempt_events env replies method route "application/json" data
              (bucketKey route) 0 reason w1) as (new & Hnew & _ & Hall).
  exists ([EvLock (bucketKey route) (now w1)] ++ new).
  rewrite Hnew, Ht1, <- app_assoc. split; [reflexivity|].
  intros req t Hin. simpl in Hin.
  destruct (sent_emitted _ _ _ _ _ _ Hall Hin) as [Hout _]. exact Hout.
Qed.

(** A response of a status other than 429, released without error, is
    what [Request] returns. *)
Lemma Request_returns_other_status reply rest method route data reason (w : World RL)
    r rl wait :
  (exists buffer, encodeBody data = inr buffer) ->
  requestError env method route = None ->
  lockBucket (bucketKey route) (limiter w) (now w) = Some (rl, wait) ->
  resp reply = Some r ->
  err reply = None ->
  snd (release (bucketKey route) (Some (http.RespHeader r)) rl
         (now w + Z.max 0 wait + Z.max 0 (elapsed reply))) = None ->
  http.StatusCode r <> http.StatusTooManyRequests ->
  fst (Request env (reply :: rest) method route data reason w) = Returned (Some r) None.
Proof.
  intros [buffer Henc] Hreq Hlock Hresp Herr Hrel Hcode.
  rewrite Request_unfold. unfold callLock. rewrite Hlock.
  assert (Hout : exists req, outbound env method route "application/json" data = inr req).
  { unfold outbound, http_NewRequest. rewrite Henc, Hreq. eauto. }
  destruct Hout as [req Hout].
  rewrite (attempt_reaches_transport env reply rest method route "application/json" data
             (bucketKey route) 0 reason _ req Hout). cbv zeta.
  rewrite Hresp, Herr. unfold callRelease. simpl.
  destruct (release _ _ _ _) as [rl' e'] eqn:Hr. simpl in Hrel. subst e'.
  apply Z.eqb_neq in Hcode. rewrite Hcode. reflexivity.
Qed.

(** X14: deleting an emoji succeeds on any status. When the URL parses, the
    request is accepted and locked, and the transport delivers a response
    of any status other than 429 whose headers the release accepts,
    [DeleteGuildEmoji] returns a nil error: a 404 for an emoji that is not
    there, a 403 or a 500 are reported as success like a 204, and the body
    is not looked at. *)
Theorem DeleteGuildEmoji_reports_success_for_any_status reply rest g emoji reason
    (w : World RL) u r rl wait :
  url_Parse (deleteRoute (GuildID g) (emojiID emoji)) = inr u ->
  requestError env "DELETE" (url_String u) = None ->
  lockBucket (bucketKey (url_String u)) (limiter w) (now w) = Some (rl, wait) ->
  resp reply = Some r ->
  err reply = None ->
  snd (release (bucketKey (url_String u)) (Some (http.RespHeader r)) rl
         (now w + Z.max 0 wait + Z.max 0 (elapsed reply))) = None ->
  http.StatusCode r <> http.StatusTooManyRequests ->
  fst (DeleteGuildEmoji env url_Parse url_String deleteRoute emojiID (reply :: rest)
         g emoji reason w) = Ends None.
Proof.
  intros Hurl Hreq Hlock Hresp Herr Hrel Hcode. unfold DeleteGuildEmoji. rewrite Hurl.
  pose proof (Request_returns_other_status reply rest "DELETE" (url_String u) None reason
                w r rl wait ltac:(simpl; eauto)
                Hreq Hlock Hresp Herr Hrel Hcode) as Hret.
  destruct (Request env (reply :: rest) "DELETE" (url_String u) None reason w)
    as [out w']. simpl in Hret. subst out. reflexivity.
Qed.

(** X15: the endpoints trust the dispatcher for a response. Each of the five
    emoji endpoints reads [resp.Body] as soon as the error of [Request] is
    nil. When [Request] returns neither a response nor an error, which it
    does after a retry that failed, the endpoint panics on the nil
    response. *)
Theorem emoji_endpoints_panic_without_response replies g emoji payload reason
    (w : World RL) u :
  (url_Parse (listRoute (GuildID g)) = inr u ->
   fst (Request env replies "GET" (url_String u) None None w) = Returned None None ->
   fst (ListGuildEmojis env url_Parse url_String listRoute decodeEmojis replies g w)
   = Fails Panicked) /\
  (url_Parse (getRoute (GuildID g) (emojiID emoji)) = inr u ->
   fst (Request env replies "GET" (url_String u) None None w) = Returned None None ->
   fst (GetGuildEmoji env url_Parse url_String getRoute emojiID decodeEmoji replies g
          emoji w) = Fails Panicked) /\
  (url_Parse (createRoute (GuildID g)) = inr u ->
   fst (Request env replies "POST" (url_String u) (Some payload) reason w)
   = Returned None None ->
   fst (CreateGuildEmoji env url_Parse url_String createRoute decodeEmoji replies g
          payload reason w) = Fails Panicked) /\
  (url_Parse (modifyRoute (GuildID g) (emojiID emoji)) = inr u ->
   fst (Request env replies "PATCH" (url_String u) (Some payload) reason w)
   = Returned None None ->
   fst (ModifyGuildEmoji env url_Parse url_String modifyRoute emojiID decodeEmoji replies
          g emoji payload reason w) = Fails Panicked) /\
  (url_Parse (deleteRoute (GuildID g) (emojiID emoji)) = inr u ->
   fst (Request env replies "DELETE" (url_String u) None reason w) = Returned None None ->
   fst (DeleteGuildEmoji env url_Parse url_String deleteRoute emojiID replies g emoji
          reason w) = Fails Panicked).
Proof.
  unfold ListGuildEmojis, GetGuildEmoji, CreateGuildEmoji, ModifyGuildEmoji,
    DeleteGuildEmoji.
  repeat split; intros -> Hret;
    match goal with
    | |- context [Request env ?rs ?m ?rt ?d ?rn ?w0] =>
        destruct (Request env rs m rt d rn w0) as [out w']
    end; simpl in Hret; subst out; reflexivity.
Qed.

(** X16: what the emoji endpoints put on the wire. Every request of
    [ListGuildEmojis] is a GET of the parsed URL without a body and
    without a content type; every request of [CreateGuildEmoji] is a POST
    of the parsed URL with the content type [application/json]. Neither
    carries an [X-Audit-Log-Reason], whatever reason is given, and when
    the URL does not parse nothing is sent and the world is left as it
    was. *)
Theorem emoji_requests_on_the_wire replies g payload reason (w : World RL) :
  (exists new,
     trace (snd (ListGuildEmojis env url_Parse url_String listRoute decodeEmojis
                   replies g w)) = trace w ++ new /\
     (forall e, url_Parse (listRoute (GuildID g)) = inl e -> new = []) /\
     forall req t u, (req, t) ∈ sent new ->
       url_Parse (listRoute (GuildID g)) = inr u ->
       http.Method req = "GET" /\ http.URL req = url_String u /\
       http.ReqBody req = EmptyString /\
       http.Header_Has (http.ReqHeader req) "Content-Type" = false /\
       http.Header_Has (http.ReqHeader req) "X-Audit-Log-Reason" = false) /\
  (exists new,
     trace (snd (CreateGuildEmoji env url_Parse url_String createRoute decodeEmoji
                   replies g payload reason w)) = trace w ++ new /\
     (forall e, url_Parse (createRoute (GuildID g)) = inl e -> new = []) /\
     forall req t u, (req, t) ∈ sent new ->
       url_Parse (createRoute (GuildID g)) = inr u ->
       http.Method req = "POST" /\ http.URL req = url_String u /\
       http.Header_Get (http.ReqHeader req) "Content-Type" = "application/json" /\
       http.Header_Has (http.ReqHeader req) "X-Audit-Log-Reason" = false).
Proof.
  split.
  - unfold ListGuildEmojis.
    destruct (url_Parse (listRoute (GuildID g))) as [e|u].
    { exists []. simpl. rewrite app_nil_r.
      split; [reflexivity|]. split; [reflexivity|].
      intros req t u Hin. inversion Hin. }
    destruct (Request_sends_outbound replies "GET" (url_String u) None None w)
      as (new & Hnew & Hsent).
    exists new. split.
    { destruct (Request env replies "GET" (url_String u) None None w) as [out w'].
      simpl in Hnew.
      destruct out as [[r|] [e|]| | |]; simpl; try exact Hnew.
      destruct (decodeEmojis (http.RespBody r)); exact Hnew. }
    split; [discriminate|].
    intros req t u' Hin [= <-]. specialize (Hsent req t Hin).
    pose proof (outbound_header_facts env _ _ _ _ _ Hsent) as (_ & _ & Hct & _ & Hx & _).
    unfold outbound, encodeBody, http_NewRequest in Hsent.
    destruct (requestError env "GET" (url_String u)); [discriminate|].
    injection Hsent as <-.
    split; [reflexivity|]. split; [reflexivity|]. split; [reflexivity|].
    split; [|exact Hx].
    destruct (http.Header_Has _ "Content-Type") eqn:Hhas; [|reflexivity].
    exfalso. apply Hct; reflexivity.
  - unfold CreateGuildEmoji.
    destruct (url_Parse (createRoute (GuildID g))) as [e|u].
    { exists []. simpl. rewrite app_nil_r.
      split; [reflexivity|]. split; [reflexivity|].
      intros req t u Hin. inversion Hin. }
    destruct (Request_sends_outbound replies "POST" (url_String u) (Some payload) reason w)
      as (new & Hnew & Hsent).
    exists new. split.
    { destruct (Request env replies "POST" (url_String u) (Some payload) reason w)
        as [out w'].
      simpl in Hnew.
      destruct out as [[r|] [e|]| | |]; simpl; try exact Hnew.
      destruct (decodeEmoji (http.RespBody r)); exact Hnew. }
    split; [discriminate|].
    intros req t u' Hin [= <-]. specialize (Hsent req t Hin).
    pose proof (outbound_header_facts env _ _ _ _ _ Hsent) as (_ & _ & _ & Hct & Hx & _).
    unfold outbound, encodeBody, http_NewRequest in Hsent.
    destruct (json.Encode payload); [discriminate|].
    destruct (requestError env "POST" (url_String u)); [discriminate|].
    injection Hsent as <-.
    split; [reflexivity|]. split; [reflexivity|].
    split; [|exact Hx].
    apply Hct. discriminate.
Qed.

End EmojiFacts.

Lemma DeleteGuildEmoji_any_status_witness :
  fst (DeleteGuildEmoji plainEnv parseAny (fun u => u) guildEmoji (fun emoji : string => emoji)
         (answered notFound :: []) someGuild "41771983429993937" (Some "unused")
         (startWorld 0)) = Ends None.
Proof.
  apply (DeleteGuildEmoji_reports_success_for_any_status plainEnv parseAny (fun u => u)
           guildEmoji (fun emoji : string => emoji) (answered notFound) [] someGuild
           "41771983429993937" (Some "unused") (startWorld 0)
           "/guilds/81384788765712384/emojis/41771983429993937" notFound
           {| ratelimit.buckets :=
                {[ "/guilds/81384788765712384/emojis/41771983429993937" :=
                     {| ratelimit.key := "/guilds/81384788765712384/emojis/41771983429993937";
                        ratelimit.limit := 0; ratelimit.remaining := 0;
                        ratelimit.resetAt := 0; ratelimit.locked := true |} ]};
              ratelimit.pausedUntil := 0 |} 0);
    [reflexivity | reflexivity | reflexivity | reflexivity | reflexivity | reflexivity
    | discriminate].
Defined.

(** The dispatcher does return neither response nor error, and the
    endpoint then panics: a rejection followed by a 429 that does not
    decode. *)
Example ListGuildEmojis_panics_after_failed_retry :
  fst (Request plainEnv [answered (rejection (3 * second) false); answered garbled] "GET"
         (guildEmojis (GuildID someGuild)) None None (startWorld 0))
  = Returned None None /\
  fst (ListGuildEmojis plainEnv parseAny (fun u => u) guildEmojis
         (fun _ => inr ([] : list string))
         [answered (rejection (3 * second) false); answered garbled] someGuild
         (startWorld 0)) = Fails Panicked.
Proof. split; reflexivity. Qed.
